(** * streamlit-langchain: a shallow embedding of [app.py]

    The application is one Streamlit script.  Every user interaction re-runs
    the script from top to bottom against the session dictionary
    [st.session_state]; widget callbacks ([password_entered], [logout]) run
    just before the re-run they trigger, and an event can only come from a
    widget that the previous run has drawn.  The embedding follows that shape:

    - Python [str] values are [string]s; a string is ASCII when none of its
      characters has a code above 127, which is what [hmac.compare_digest]
      insists on;
    - Python dictionaries with computed keys ([st.secrets] tables, the
      localization bundle, document metadata) are [gmap string _]; a subscript
      on a missing key raises [KeyError];
    - [st.session_state] has a fixed set of keys and is a record of optional
      fields ([None] = key absent);
    - exceptions are the [Raised] case of [Result]; the script has no handler
      around the code modelled here, so a [Raised] ends the run and the state
      stays as it was at that point;
    - the collaborators (vector store, chat model, history store, file
      system) are answers recorded in a log, each answer a function of the
      log so far;
    - langchain's text splitter and conversation memory are library code: the
      splitter is a parameter of the script, and both have a model written
      from the specification ([fixed_windows], [Window]). *)

From Stdlib Require Import Ascii ZArith Lia.
From stdpp Require Import base option list strings pretty gmap.

(** ** Exceptions and fallible computations *)

Inductive Exn : Type :=
  | KeyError (key : string)
  | TypeError
  | UnicodeDecodeError
  | OSError
  | ServiceError (service : string).

Inductive Result (A : Type) : Type :=
  | Ok (a : A)
  | Raised (e : Exn).
Arguments Ok {A} a.
Arguments Raised {A} e.

#[global] Instance Result_ret : MRet Result := fun _ a => Ok a.
#[global] Instance Result_bind : MBind Result := fun _ _ f m =>
  match m with
  | Ok a => f a
  | Raised e => Raised e
  end.

Definition is_raised {A} (r : Result A) : bool :=
  match r with Ok _ => false | Raised _ => true end.

(** [d[key]] on an optional slot of a dictionary. *)
Definition getitem {A} (key : string) (slot : option A) : Result A :=
  match slot with
  | Some a => Ok a
  | None => Raised (KeyError key)
  end.

(** ** Chat messages ([langchain.schema]) *)

Inductive Role : Type := human | ai.

Record Message : Type := { type : Role; content : string }.

Definition HumanMessage (c : string) : Message := {| type := human; content := c |}.
Definition AIMessage (c : string) : Message := {| type := ai; content := c |}.

(** ** [st.session_state] *)

Record SessionState : Type := {
  session_id : option string;
  username : option string;
  password : option string;
  password_correct : option bool;
  user : option string;
  messages : option (list Message)
}.

Definition empty_session : SessionState :=
  {| session_id := None; username := None; password := None;
     password_correct := None; user := None; messages := None |}.

Definition with_session_id (v : option string) (s : SessionState) : SessionState :=
  {| session_id := v; username := username s; password := password s;
     password_correct := password_correct s; user := user s;
     messages := messages s |}.

Definition with_username (v : option string) (s : SessionState) : SessionState :=
  {| session_id := session_id s; username := v; password := password s;
     password_correct := password_correct s; user := user s;
     messages := messages s |}.

Definition with_password (v : option string) (s : SessionState) : SessionState :=
  {| session_id := session_id s; username := username s; password := v;
     password_correct := password_correct s; user := user s;
     messages := messages s |}.

Definition with_password_correct (v : option bool) (s : SessionState) : SessionState :=
  {| session_id := session_id s; username := username s; password := password s;
     password_correct := v; user := user s; messages := messages s |}.

Definition with_user (v : option string) (s : SessionState) : SessionState :=
  {| session_id := session_id s; username := username s; password := password s;
     password_correct := password_correct s; user := v; messages := messages s |}.

Definition with_messages (v : option (list Message)) (s : SessionState) : SessionState :=
  {| session_id := session_id s; username := username s; password := password s;
     password_correct := password_correct s; user := user s; messages := v |}.

(** [del st.session_state.key]: raises when the key is absent. *)
Definition del_password (s : SessionState) : Result SessionState :=
  _ ← getitem "password" (password s); Ok (with_password None s).
Definition del_password_correct (s : SessionState) : Result SessionState :=
  _ ← getitem "password_correct" (password_correct s); Ok (with_password_correct None s).
Definition del_user (s : SessionState) : Result SessionState :=
  _ ← getitem "user" (user s); Ok (with_user None s).
Definition del_messages (s : SessionState) : Result SessionState :=
  _ ← getitem "messages" (messages s); Ok (with_messages None s).

(** ** Authentication: [check_password] and its callback *)

Definition is_ascii (s : string) : bool :=
  forallb (fun c => Nat.ltb (nat_of_ascii c) 128) (String.list_ascii_of_string s).

(** [hmac.compare_digest] on two [str]: equality, and a [TypeError] as soon as
    one of them holds a non-ASCII character. *)
Definition compare_digest (a b : string) : Result bool :=
  if is_ascii a && is_ascii b then Ok (String.eqb a b) else Raised TypeError.

Section Auth.
(** [st.secrets['passwords']] *)
Variable passwords : gmap string string.

(** The condition of the [if] in [password_entered]; [and] evaluates its
    right operand only when the user name is in the table. *)
Definition credentials_ok (s : SessionState) : Result bool :=
  u ← getitem "username" (username s);
  match passwords !! u with
  | None => Ok false
  | Some stored =>
      p ← getitem "password" (password s);
      compare_digest p stored
  end.

Definition password_entered (s : SessionState) : Result SessionState :=
  ok ← credentials_ok s;
  if (ok : bool) then
    u ← getitem "username" (username s);
    del_password (with_user (Some u) (with_password_correct (Some true) s))
  else
    Ok (with_password_correct (Some false) s).
End Auth.

(** ** Constants *)

Definition top_k_vectorstore : nat := 4.
Definition top_k_memory : nat := 3.

Definition nl : string := String (ascii_of_nat 10) EmptyString.

(** The cursor appended to the draft while tokens arrive, the marker in
    front of every source and the face of the login error are written in
    their UTF-8 encoding. *)
Definition cursor : string := "▌".
Definition book : string := "📙".

(** ** Documents and chunking *)

Record Document : Type := {
  page_content : string;
  metadata : gmap string string
}.

(** [RecursiveCharacterTextSplitter.create_documents]: every chunk of the
    i-th text becomes a document carrying (a copy of) the i-th metadata. *)
Fixpoint create_documents (split_text : string -> list string)
    (texts : list string) (metadatas : list (gmap string string)) : list Document :=
  match texts, metadatas with
  | text :: texts', md :: metadatas' =>
      map (fun chunk => {| page_content := chunk; metadata := md |}) (split_text text)
        ++ create_documents split_text texts' metadatas'
  | _, _ => []
  end.

Definition split_documents (split_text : string -> list string)
    (docs : list Document) : list Document :=
  create_documents split_text (map page_content docs) (map metadata docs).

(** Modelled from the spec: the splitter itself
    ([langchain.text_splitter.RecursiveCharacterTextSplitter.split_text]) is
    library code outside the repository.  The spec describes it as cutting a
    text "into fixed-size overlapping windows (size 1500 units, 100-unit
    overlap)", a text shorter than the window giving exactly one chunk: the
    first window starts at 0, each next one [chunk_size - chunk_overlap]
    further, and the window that reaches the end of the text is the last. *)
Fixpoint windows (fuel chunk_size stride : nat) (text : list ascii) : list (list ascii) :=
  match fuel with
  | O => [text]
  | S fuel' =>
      if Nat.leb (length text) chunk_size then [text]
      else take chunk_size text :: windows fuel' chunk_size stride (drop stride text)
  end.

Definition fixed_windows (chunk_size chunk_overlap : nat) (text : string) : list string :=
  let chars := String.list_ascii_of_string text in
  map String.string_of_list_ascii
      (windows (length chars) chunk_size (chunk_size - chunk_overlap) chars).

(** The quotient rounded up, on integers ([b] positive). *)
Definition ceil_div (a b : Z) : Z := (- ((- a) / b))%Z.

(** ** Memory Window *)

Abbreviation Exchange := (string * string)%type.

(** Modelled from the spec: the window is langchain's
    [ConversationBufferWindowMemory] over an [AstraDBChatMessageHistory],
    both outside the repository.  The spec gives its contract:
    "load() -> ordered sequence of the most recent k (question, answer)
    pairs; save(question, answer) appends one pair and evicts the oldest when
    size exceeds k; clear() discards all pairs". *)
Module Window.
Definition load (k : nat) (entries : list Exchange) : list Exchange :=
  drop (length entries - k) entries.

Definition save (k : nat) (question answer : string)
    (entries : list Exchange) : list Exchange :=
  let grown := entries ++ [(question, answer)] in
  if Nat.ltb k (length grown) then tail grown else grown.

Definition clear (entries : list Exchange) : list Exchange := [].

(** [n] exchanges saved one after the other. *)
Definition save_all (k : nat) (saved entries : list Exchange) : list Exchange :=
  fold_left (fun w qa => save k (fst qa) (snd qa) w) saved entries.
End Window.

(** The object built by [load_memory]: a window of [k] exchanges over the
    history stored under [chat_memory]. *)
Record ConversationBufferWindowMemory : Type := {
  chat_memory : string;
  k_window : nat
}.

(** The object built by [load_retriever]. *)
Record Retriever : Type := {
  collection : string;
  search_k : nat
}.

(** ** The outside world *)

(** What the three lambdas of the [RunnableMap] hand to the prompt. *)
Record ChainInput : Type := {
  context : list Document;
  chat_history : list Exchange;
  question : string
}.

(** Everything the script does that is visible outside the interpreter, with
    the answer it got. *)
Inductive Call : Type :=
  | similarity_search (coll query : string) (k : nat) (response : Result (list Document))
  | chat_model (input : ChainInput) (tokens : list string) (response : Result string)
  | history_read (key : string) (response : Result unit)
  | history_write (key question answer : string)
  | history_clear (key : string)
  | add_documents (coll : string) (docs : list Document)
  | collection_clear (coll : string)
  | staging_write (name : string) (response : Result unit)
  | pdf_load (name : string) (response : Result (list Document))
  | construct (memo_key : string) (response : Result unit)
  | markdown (text : string)
  | info (text : string)
  | error (text : string).

(** The collaborators and the data files.  A remote call may answer
    differently every time: its answer is a function of all that happened
    before. *)
Record Env : Type := {
  passwords : gmap string string;          (* st.secrets['passwords'] *)
  languages : gmap string string;          (* st.secrets.languages *)
  delete_option : gmap string string;      (* st.secrets['delete_option'] *)
  localization : string -> gmap string string;  (* localization.csv, per locale *)
  rails : string -> list (string * string);     (* rails.csv, per user *)
  welcome_text : string -> string;         (* <username>.md or welcome.md *)
  uuid4 : list Call -> string;
  split_text : string -> list string;      (* the splitter, size 1500, overlap 100 *)
  decode : string -> Result string;        (* bytes.decode() *)
  basename : string -> string;             (* os.path.basename *)
  normpath : string -> string;             (* os.path.normpath *)
  answer_search : list Call -> string -> string -> nat -> Result (list Document);
  answer_model : list Call -> ChainInput -> list string * Result string;
  answer_history_read : list Call -> string -> Result unit;
  answer_staging : list Call -> string -> Result unit;
  answer_pdf : list Call -> string -> Result (list Document);
  answer_construct : list Call -> string -> Result unit
}.

Record UploadedFile : Type := {
  name : string;
  getvalue : string
}.

(** ** Application state and the script monad *)

Inductive Widget : Type :=
  | credentials_form | logout_form | upload_form
  | delete_memory_form | delete_context_form | chat_input.

#[global] Instance Widget_eq_dec : EqDecision Widget.
Proof. solve_decision. Defined.

Record AppState : Type := {
  session : SessionState;
  cache_resource : gmap string string;     (* memo key -> store the handle points to *)
  cache_data : gset string;
  histories : gmap string (list Exchange); (* the chat-history store *)
  collections : gmap string (list Document); (* the vector store *)
  widgets : list Widget;                   (* rendered by the last run *)
  log : list Call
}.

Definition with_session (v : SessionState) (st : AppState) : AppState :=
  {| session := v; cache_resource := cache_resource st; cache_data := cache_data st;
     histories := histories st; collections := collections st;
     widgets := widgets st; log := log st |}.

Definition with_cache_resource (v : gmap string string) (st : AppState) : AppState :=
  {| session := session st; cache_resource := v; cache_data := cache_data st;
     histories := histories st; collections := collections st;
     widgets := widgets st; log := log st |}.

Definition with_cache_data (v : gset string) (st : AppState) : AppState :=
  {| session := session st; cache_resource := cache_resource st; cache_data := v;
     histories := histories st; collections := collections st;
     widgets := widgets st; log := log st |}.

Definition with_histories (v : gmap string (list Exchange)) (st : AppState) : AppState :=
  {| session := session st; cache_resource := cache_resource st;
     cache_data := cache_data st; histories := v; collections := collections st;
     widgets := widgets st; log := log st |}.

Definition with_collections (v : gmap string (list Document)) (st : AppState) : AppState :=
  {| session := session st; cache_resource := cache_resource st;
     cache_data := cache_data st; histories := histories st; collections := v;
     widgets := widgets st; log := log st |}.

Definition with_widgets (v : list Widget) (st : AppState) : AppState :=
  {| session := session st; cache_resource := cache_resource st;
     cache_data := cache_data st; histories := histories st;
     collections := collections st; widgets := v; log := log st |}.

Definition with_log (v : list Call) (st : AppState) : AppState :=
  {| session := session st; cache_resource := cache_resource st;
     cache_data := cache_data st; histories := histories st;
     collections := collections st; widgets := widgets st; log := v |}.

Definition initial_state : AppState :=
  {| session := empty_session; cache_resource := ∅; cache_data := ∅;
     histories := ∅; collections := ∅; widgets := []; log := [] |}.

(** A piece of the script: it runs on the state, and either finishes or
    raises, leaving the state as it was at the [raise]. *)
Definition Script (A : Type) : Type := AppState -> AppState * Result A.

#[global] Instance Script_ret : MRet Script := fun _ a st => (st, Ok a).
#[global] Instance Script_bind : MBind Script := fun _ _ f m st =>
  match m st with
  | (st', Ok a) => f a st'
  | (st', Raised e) => (st', Raised e)
  end.

Definition lift {A} (r : Result A) : Script A := fun st => (st, r).
Definition gets {A} (f : AppState -> A) : Script A := fun st => (st, Ok (f st)).
Definition modify (f : AppState -> AppState) : Script unit := fun st => (f st, Ok tt).
Definition emit (c : Call) : Script unit :=
  modify (fun st => with_log (log st ++ [c]) st).
Definition render (w : Widget) : Script unit :=
  modify (fun st => with_widgets (widgets st ++ [w]) st).

(** [d[key]] on a dictionary. *)
Definition subscript (d : gmap string string) (key : string) : Script string :=
  lift (getitem key (d !! key)).

Definition entries_of (key : string) (st : AppState) : list Exchange :=
  default [] (histories st !! key).
Definition documents_of (coll : string) (st : AppState) : list Document :=
  default [] (collections st !! coll).

(** [s.endswith(suffix)] *)
Definition endswith (s suffix : string) : bool :=
  Nat.leb (String.length suffix) (String.length s)
  && String.eqb
       (String.substring (String.length s - String.length suffix)
                         (String.length suffix) s)
       suffix.

(** The extension of a file name: what follows its last dot, if it has one. *)
Fixpoint extension (file_name : string) : option string :=
  match file_name with
  | EmptyString => None
  | String c rest =>
      match extension rest with
      | Some e => Some e
      | None => if Ascii.eqb c "."%char then Some rest else None
      end
  end.

(** The accumulator of [StreamHandler]. *)
Record StreamHandler : Type := { text : string }.

(** What the user can do to the page.  Each of them re-runs the script. *)
Inductive UserEvent : Type :=
  | Rerun
  | SubmitCredentials (entered_username entered_password : string)
  | ClickLogout
  | SubmitUpload (uploaded_files : list (option UploadedFile))
  | SubmitDeleteMemory
  | SubmitDeleteContext
  | SubmitQuestion (q : string).

Section Script.
Variable env : Env.

(** *** Calls to the collaborators *)

Definition ask {A} (answer : list Call -> A) (record : A -> Call) : Script A :=
  fun st =>
    let r := answer (log st) in
    (with_log (log st ++ [record r]) st, Ok r).

Definition call {A} (answer : list Call -> Result A)
    (record : Result A -> Call) : Script A :=
  r ← ask answer record; lift r.

Definition get_relevant_documents (retriever : Retriever) (query : string)
    : Script (list Document) :=
  call (fun l => answer_search env l (collection retriever) query (search_k retriever))
       (similarity_search (collection retriever) query (search_k retriever)).

Definition vectorstore_add_documents (coll : string) (docs : list Document)
    : Script unit :=
  emit (add_documents coll docs) ;;
  modify (fun st =>
    with_collections (<[coll := documents_of coll st ++ docs]> (collections st)) st).

Definition vectorstore_clear (coll : string) : Script unit :=
  emit (collection_clear coll) ;;
  modify (fun st => with_collections (<[coll := []]> (collections st)) st).

Definition load_memory_variables (memory : ConversationBufferWindowMemory)
    : Script (list Exchange) :=
  call (fun l => answer_history_read env l (chat_memory memory))
       (history_read (chat_memory memory)) ;;
  gets (fun st => Window.load (k_window memory) (entries_of (chat_memory memory) st)).

Definition save_context (memory : ConversationBufferWindowMemory)
    (q answer : string) : Script unit :=
  emit (history_write (chat_memory memory) q answer) ;;
  modify (fun st =>
    with_histories
      (<[chat_memory memory :=
           Window.save (k_window memory) q answer (entries_of (chat_memory memory) st)]>
         (histories st)) st).

Definition memory_clear (memory : ConversationBufferWindowMemory) : Script unit :=
  emit (history_clear (chat_memory memory)) ;;
  modify (fun st =>
    with_histories
      (<[chat_memory memory := Window.clear (entries_of (chat_memory memory) st)]>
         (histories st)) st).

(** *** Memoised constructors ([st.cache_resource], [st.cache_data]) *)

Definition cached_resource (memo_key : string) (body : Script string) : Script string :=
  hit ← gets (fun st => cache_resource st !! memo_key);
  match hit with
  | Some handle => mret handle
  | None =>
      handle ← body;
      modify (fun st =>
        with_cache_resource (<[memo_key := handle]> (cache_resource st)) st) ;;
      mret handle
  end.

Definition cached_data {A} (memo_key : string) (value : A) : Script A :=
  modify (fun st => with_cache_data ({[memo_key]} ∪ cache_data st) st) ;;
  mret value.

(** Building a client (reading its token and endpoint from [st.secrets],
    setting it up) may fail. *)
Definition constructing (memo_key : string) : Script unit :=
  call (fun l => answer_construct env l memo_key) (construct memo_key).

Definition load_localization (locale : string) : Script (gmap string string) :=
  cached_data ("load_localization(" +:+ locale +:+ ")") (localization env locale).

Definition load_rails (uname : string) : Script (list (string * string)) :=
  cached_data ("load_rails(" +:+ uname +:+ ")") (rails env uname).

Definition load_prompt : Script unit :=
  cached_data "load_prompt()" tt.

Definition load_embedding : Script string :=
  cached_resource "load_embedding()"
    (constructing "load_embedding()" ;; mret "").

Definition load_vectorstore (uname : string) : Script string :=
  let memo_key := "load_vectorstore(" +:+ uname +:+ ")" in
  cached_resource memo_key
    (constructing memo_key ;; mret ("vector_context_" +:+ uname)).

Definition load_retriever (vectorstore : string) : Script Retriever :=
  coll ← cached_resource "load_retriever()" (mret vectorstore);
  mret {| collection := coll; search_k := top_k_vectorstore |}.

Definition load_model : Script string :=
  cached_resource "load_model()" (constructing "load_model()" ;; mret "").

Definition load_chat_history (uname : string) : Script string :=
  let memo_key := "load_chat_history(" +:+ uname +:+ ")" in
  cached_resource memo_key
    (s ← gets session;
     sid ← lift (getitem "session_id" (session_id s));
     constructing memo_key ;;
     mret (uname +:+ "_" +:+ sid)).

Definition load_memory (history_handle : string)
    : Script ConversationBufferWindowMemory :=
  key ← cached_resource "load_memory()" (mret history_handle);
  mret {| chat_memory := key; k_window := top_k_memory |}.

(** *** [logout] *)

(** [del st.session_state.<key>] as a step of the script. *)
Definition del_key (del : SessionState -> Result SessionState) : Script unit :=
  s ← gets session;
  s' ← lift (del s);
  modify (with_session s').

Definition logout : Script unit :=
  del_key del_password_correct ;;
  del_key del_user ;;
  del_key del_messages ;;
  modify (with_cache_resource ∅) ;;
  modify (with_cache_data ∅).

(** *** [vectorize_text] *)

Definition stage (file : UploadedFile) : Script unit :=
  call (fun l => answer_staging env l (name file)) (staging_write (name file)).

Definition vectorize_txt (lang_dict : gmap string string) (vectorstore : string)
    (uploaded_file : UploadedFile) : Script unit :=
  decoded ← lift (decode env (getvalue uploaded_file));
  let texts :=
    create_documents (split_text env) [decoded]
                     [{[ "source" := name uploaded_file ]}] in
  vectorstore_add_documents vectorstore texts ;;
  load_text ← subscript lang_dict "load_text";
  emit (info (pretty (length texts) +:+ " " +:+ load_text)).

Definition vectorize_pdf (lang_dict : gmap string string) (vectorstore : string)
    (uploaded_file : UploadedFile) : Script unit :=
  docs ← call (fun l => answer_pdf env l (name uploaded_file))
              (pdf_load (name uploaded_file));
  let pages := split_documents (split_text env) docs in
  vectorstore_add_documents vectorstore pages ;;
  load_pdf ← subscript lang_dict "load_pdf";
  emit (info (pretty (length pages) +:+ " " +:+ load_pdf)).

Fixpoint vectorize_text (lang_dict : gmap string string) (vectorstore : string)
    (uploaded_files : list (option UploadedFile)) : Script unit :=
  match uploaded_files with
  | [] => mret tt
  | None :: rest => vectorize_text lang_dict vectorstore rest
  | Some uploaded_file :: rest =>
      stage uploaded_file ;;
      (if endswith (name uploaded_file) "txt"
       then vectorize_txt lang_dict vectorstore uploaded_file else mret tt) ;;
      (if endswith (name uploaded_file) "pdf"
       then vectorize_pdf lang_dict vectorstore uploaded_file else mret tt) ;;
      vectorize_text lang_dict vectorstore rest
  end.

(** *** The conversation turn *)

Definition append_message (m : Message) : Script unit :=
  s ← gets session;
  ms ← lift (getitem "messages" (messages s));
  modify (fun st => with_session (with_messages (Some (ms ++ [m])) (session st)) st).

Definition on_llm_new_token (handler : StreamHandler) (token : string)
    : Script StreamHandler :=
  let handler' := {| text := text handler +:+ token |} in
  emit (markdown (text handler' +:+ cursor)) ;;
  mret handler'.

Fixpoint stream (handler : StreamHandler) (tokens : list string)
    : Script StreamHandler :=
  match tokens with
  | [] => mret handler
  | token :: rest =>
      handler' ← on_llm_new_token handler token;
      stream handler' rest
  end.

(** [chain.invoke]: the [RunnableMap] evaluates its three lambdas (only
    [context] reaches a collaborator), the prompt is filled and the model is
    called with the stream handler as callback. *)
Definition chain_invoke (retriever : Retriever) (q : string)
    (history : list Exchange) : Script string :=
  docs ← get_relevant_documents retriever q;
  let input := {| context := docs; chat_history := history; question := q |} in
  reply ← ask (fun l => answer_model env l input)
              (fun r => chat_model input (fst r) (snd r));
  stream {| text := "" |} (fst reply) ;;
  lift (snd reply).

Definition source_line (source : string) : string :=
  book +:+ " :orange[" +:+ basename env (normpath env source) +:+ "]  " +:+ nl.

(** The [for doc in relevant_documents] loop. *)
Fixpoint sources_loop (relevant_documents : list Document) (content : string)
    (sources : list string) : Result (string * list string) :=
  match relevant_documents with
  | [] => Ok (content, sources)
  | doc :: rest =>
      source ← getitem "source" (metadata doc !! "source");
      if decide (source ∈ sources)
      then sources_loop rest content sources
      else sources_loop rest (content +:+ source_line source) (sources ++ [source])
  end.

Definition sources_header (sources_used : string) : string :=
  nl +:+ "        " +:+ nl +:+ "*" +:+ sources_used +:+ ":*  " +:+ nl.

Definition chat (lang_dict : gmap string string) (retriever : Retriever)
    (memory : ConversationBufferWindowMemory) (q : string) : Script unit :=
  append_message (HumanMessage q) ;;
  emit (markdown q) ;;
  history ← load_memory_variables memory;
  response ← chain_invoke retriever q history;
  relevant_documents ← get_relevant_documents retriever q;
  sources_used ← subscript lang_dict "sources_used";
  footer ← lift (sources_loop relevant_documents
                   (response +:+ sources_header sources_used) []);
  emit (markdown (fst footer)) ;;
  save_context memory q (fst footer) ;;
  append_message (AIMessage (fst footer)).

(** *** The page *)

Definition init_session_id : Script unit :=
  s ← gets session;
  match session_id s with
  | Some _ => mret tt
  | None =>
      fresh ← gets (fun st => uuid4 env (log st));
      modify (fun st => with_session (with_session_id (Some fresh) (session st)) st)
  end.

(** The two text inputs of the form live in the session under their keys. *)
Definition login_form : Script unit :=
  modify (fun st =>
    let s := session st in
    with_session
      (with_password (Some (default "" (password s)))
         (with_username (Some (default "" (username s))) s)) st) ;;
  render credentials_form.

Definition check_password : Script bool :=
  s ← gets session;
  if default false (password_correct s) then mret true
  else
    login_form ;;
    s ← gets session;
    (if password_correct s is Some _
     then emit (error "😕 User not known or password incorrect")
     else mret tt) ;;
    mret false.

(** The [show_spinner] arguments of the six [st.cache_resource] decorators,
    evaluated when the functions are defined. *)
Definition spinner_texts (lang_dict : gmap string string) : Script unit :=
  subscript lang_dict "load_embedding" ;;
  subscript lang_dict "load_vectorstore" ;;
  subscript lang_dict "load_retriever" ;;
  subscript lang_dict "load_model" ;;
  subscript lang_dict "load_message_history" ;;
  subscript lang_dict "load_message_history" ;;
  mret tt.

Definition welcome_messages (lang_dict : gmap string string) : Script (list Message) :=
  assistant_welcome ← subscript lang_dict "assistant_welcome";
  mret [AIMessage assistant_welcome].

Definition set_messages (ms : list Message) : Script unit :=
  modify (fun st => with_session (with_messages (Some ms) (session st)) st).

Definition init_messages (lang_dict : gmap string string) : Script unit :=
  s ← gets session;
  match messages s with
  | Some _ => mret tt
  | None => ms ← welcome_messages lang_dict; set_messages ms
  end.

Definition logout_block (lang_dict : gmap string string) : Script unit :=
  subscript lang_dict "logout_caption" ;;
  subscript lang_dict "logout_button" ;;
  render logout_form.

Definition upload_block (lang_dict : gmap string string) (vectorstore : string)
    (ev : UserEvent) : Script unit :=
  subscript lang_dict "load_context" ;;
  subscript lang_dict "load_context_button" ;;
  render upload_form ;;
  match ev with
  | SubmitUpload uploaded_file => vectorize_text lang_dict vectorstore uploaded_file
  | _ => mret tt
  end.

Definition delete_memory_submitted (lang_dict : gmap string string)
    (memory : ConversationBufferWindowMemory) : Script unit :=
  subscript lang_dict "deleting_memory" ;;
  memory_clear memory.

Definition delete_memory_block (lang_dict : gmap string string)
    (memory : ConversationBufferWindowMemory) (ev : UserEvent) : Script unit :=
  subscript lang_dict "delete_memory" ;;
  subscript lang_dict "delete_memory_button" ;;
  render delete_memory_form ;;
  match ev with
  | SubmitDeleteMemory => delete_memory_submitted lang_dict memory
  | _ => mret tt
  end.

Definition delete_context_submitted (lang_dict : gmap string string)
    (vectorstore : string) (memory : ConversationBufferWindowMemory) : Script unit :=
  subscript lang_dict "deleting_context" ;;
  vectorstore_clear vectorstore ;;
  memory_clear memory ;;
  ms ← welcome_messages lang_dict;
  set_messages ms.

Definition delete_allowed (uname : string) : bool :=
  match delete_option env !! uname with
  | Some flag => String.eqb flag "True"
  | None => false
  end.

Definition delete_context_block (lang_dict : gmap string string) (uname : string)
    (vectorstore : string) (memory : ConversationBufferWindowMemory)
    (ev : UserEvent) : Script unit :=
  if delete_allowed uname then
    subscript lang_dict "delete_context" ;;
    subscript lang_dict "delete_context_button" ;;
    render delete_context_form ;;
    match ev with
    | SubmitDeleteContext => delete_context_submitted lang_dict vectorstore memory
    | _ => mret tt
    end
  else mret tt.

Fixpoint draw_all (lines : list string) : Script unit :=
  match lines with
  | [] => mret tt
  | line :: rest => emit (markdown line) ;; draw_all rest
  end.

Definition draw_rails (lang_dict : gmap string string)
    (rails_dict : list (string * string)) : Script unit :=
  subscript lang_dict "rails_1" ;;
  subscript lang_dict "rails_2" ;;
  draw_all (map (fun rail => fst rail +:+ ". " +:+ snd rail) rails_dict).

Definition draw_messages : Script unit :=
  s ← gets session;
  ms ← lift (getitem "messages" (messages s));
  draw_all (map content ms).

Definition chat_block (lang_dict : gmap string string) (retriever : Retriever)
    (memory : ConversationBufferWindowMemory) (ev : UserEvent) : Script unit :=
  subscript lang_dict "assistant_question" ;;
  render chat_input ;;
  match ev with
  | SubmitQuestion q => if String.eqb q "" then mret tt else chat lang_dict retriever memory q
  | _ => mret tt
  end.

(** The script below [st.stop()], for a logged-in user.  Calls that only
    lay out the page (image, captions, subheaders) leave no trace. *)
Definition main_page (ev : UserEvent) : Script unit :=
  s ← gets session;
  uname ← lift (getitem "user" (user s));
  language ← lift (getitem uname (languages env !! uname));
  lang_dict ← load_localization language;
  spinner_texts lang_dict ;;
  init_messages lang_dict ;;
  emit (markdown (welcome_text env uname)) ;;
  logout_block lang_dict ;;
  rails_dict ← load_rails uname;
  load_embedding ;;
  vectorstore ← load_vectorstore uname;
  retriever ← load_retriever vectorstore;
  load_model ;;
  history_handle ← load_chat_history uname;
  memory ← load_memory history_handle;
  load_prompt ;;
  upload_block lang_dict vectorstore ev ;;
  delete_memory_block lang_dict memory ev ;;
  delete_context_block lang_dict uname vectorstore memory ev ;;
  draw_rails lang_dict rails_dict ;;
  draw_messages ;;
  chat_block lang_dict retriever memory ev.

(** One run of the script, top to bottom. *)
Definition page (ev : UserEvent) : Script unit :=
  modify (with_widgets []) ;;
  init_session_id ;;
  logged_in ← check_password;
  if (logged_in : bool) then main_page ev else mret tt (* st.stop() *).

Definition widget_of (ev : UserEvent) : option Widget :=
  match ev with
  | Rerun => None
  | SubmitCredentials _ _ => Some credentials_form
  | ClickLogout => Some logout_form
  | SubmitUpload _ => Some upload_form
  | SubmitDeleteMemory => Some delete_memory_form
  | SubmitDeleteContext => Some delete_context_form
  | SubmitQuestion _ => Some chat_input
  end.

(** What Streamlit runs before the script: the new widget values are
    stored and the [on_click] callback of the pressed button is called. *)
Definition callback (ev : UserEvent) : Script unit :=
  match ev with
  | SubmitCredentials u p =>
      modify (fun st =>
        with_session (with_password (Some p) (with_username (Some u) (session st))) st) ;;
      s ← gets session;
      s' ← lift (password_entered (passwords env) s);
      modify (with_session s')
  | ClickLogout => logout
  | _ => mret tt
  end.

(** An event can only come from a widget that the last run has drawn. *)
Definition handle (ev : UserEvent) : Script unit :=
  shown ← gets (fun st =>
    match widget_of ev with
    | Some w => bool_decide (w ∈ widgets st)
    | None => true
    end);
  if (shown : bool) then callback ev ;; page ev else mret tt.

Definition run (events : list UserEvent) (st : AppState) : AppState :=
  fold_left (fun st ev => fst (handle ev st)) events st.
End Script.

(** ** Vocabulary of the properties *)

(** The distinct elements of a list, each at the place of its first
    occurrence. *)
Fixpoint first_seen (l : list string) : list string :=
  match l with
  | [] => []
  | x :: rest => x :: filter (fun y => y ≠ x) (first_seen rest)
  end.


(** The footer text: one line per listed source, appended in order. *)
Definition footer_text (env : Env) (content : string) (listed : list string) : string :=
  fold_left (fun c source => c +:+ source_line env source) listed content.

(** The entered credentials are those of the table. *)
Definition credentials_match (table : gmap string string) (s : SessionState) : Prop :=
  ∃ u p, username s = Some u ∧ password s = Some p ∧ table !! u = Some p.

(** What a piece of the script added to the log. *)
Definition new_calls (before after : AppState) : list Call :=
  drop (length (log before)) (log after).

Definition searches (calls : list Call) : list (string * string * nat) :=
  omap (fun c =>
    match c with
    | similarity_search coll query k _ => Some (coll, query, k)
    | _ => None
    end) calls.

Definition search_answers (calls : list Call) : list (Result (list Document)) :=
  omap (fun c =>
    match c with
    | similarity_search _ _ _ response => Some response
    | _ => None
    end) calls.

Definition model_calls (calls : list Call) : list (ChainInput * Result string) :=
  omap (fun c =>
    match c with
    | chat_model input _ response => Some (input, response)
    | _ => None
    end) calls.

Definition history_writes (calls : list Call) : list (string * string * string) :=
  omap (fun c =>
    match c with
    | history_write key q a => Some (key, q, a)
    | _ => None
    end) calls.

Definition stored_batches (calls : list Call) : list (string * list Document) :=
  omap (fun c =>
    match c with
    | add_documents coll docs => Some (coll, docs)
    | _ => None
    end) calls.

(** The welcome message of a user: the [assistant_welcome] text of the
    user's language. *)
Definition welcome_of (env : Env) (u : string) : option Message :=
  locale ← languages env !! u;
  assistant_welcome ← localization env locale !! "assistant_welcome";
  Some (AIMessage assistant_welcome).





(** A step that leaves the session alone and does not draw the login form. *)
Definition quiet {A} (m : Script A) : Prop :=
  ∀ st,
    session (fst (m st)) = session st
    ∧ (credentials_form ∈ widgets (fst (m st)) -> credentials_form ∈ widgets st).

(** A step that keeps a property of the state, whether it finishes or
    raises. *)
Definition keeps {A} (P : AppState -> Prop) (m : Script A) : Prop :=
  ∀ st, P st -> P (fst (m st)).

(** ** Sample data *)

Definition sample_lang : gmap string string :=
  list_to_map (map (fun key => (key, key))
    ["load_embedding"; "load_vectorstore"; "load_retriever"; "load_model";
     "load_message_history"; "assistant_welcome"; "logout_caption";
     "logout_button"; "load_context"; "load_context_button"; "delete_memory";
     "delete_memory_button"; "deleting_memory"; "delete_context";
     "delete_context_button"; "deleting_context"; "rails_1"; "rails_2";
     "assistant_question"; "sources_used"; "load_text"; "load_pdf"]).

Definition sample_doc (source : string) : Document :=
  {| page_content := "Refunds are processed within 14 days.";
     metadata := {[ "source" := source ]} |}.

(** A world where everything answers; the second and later searches of a
    history return other documents than the first. *)
Definition sample_env : Env :=
  {| passwords := {[ "alice" := "wonderland" ]};
     languages := {[ "alice" := "en" ]};
     delete_option := {[ "alice" := "True" ]};
     localization := fun _ => sample_lang;
     rails := fun _ => [("1", "What is the refund policy?")];
     welcome_text := fun _ => "Welcome";
     uuid4 := fun _ => "7c9e";
     split_text := fixed_windows 1500 100;
     decode := fun raw => Ok raw;
     basename := fun path => path;
     normpath := fun path => path;
     answer_search := fun calls _ _ _ =>
       match searches calls with
       | [] => Ok [sample_doc "policy.txt"]
       | _ => Ok [sample_doc "A"; sample_doc "B"; sample_doc "A"; sample_doc "C"]
       end;
     answer_model := fun _ _ => (["Within "; "14 days."], Ok "Within 14 days.");
     answer_history_read := fun _ _ => Ok tt;
     answer_staging := fun _ _ => Ok tt;
     answer_pdf := fun _ _ => Ok [];
     answer_construct := fun _ _ => Ok tt |}.

(** The same world with the chat model unreachable. *)
Definition sample_env_model_down : Env :=
  {| passwords := passwords sample_env;
     languages := languages sample_env;
     delete_option := delete_option sample_env;
     localization := localization sample_env;
     rails := rails sample_env;
     welcome_text := welcome_text sample_env;
     uuid4 := uuid4 sample_env;
     split_text := split_text sample_env;
     decode := decode sample_env;
     basename := basename sample_env;
     normpath := normpath sample_env;
     answer_search := answer_search sample_env;
     answer_model := fun _ _ => (["Within "], Raised (ServiceError "chat model"));
     answer_history_read := answer_history_read sample_env;
     answer_staging := answer_staging sample_env;
     answer_pdf := answer_pdf sample_env;
     answer_construct := answer_construct sample_env |}.

Definition sample_retriever : Retriever :=
  {| collection := "vector_context_alice"; search_k := top_k_vectorstore |}.

Definition sample_memory : ConversationBufferWindowMemory :=
  {| chat_memory := "alice_7c9e"; k_window := top_k_memory |}.

(** The session of a user who has typed a name and a password. *)
Definition attempt (u p : string) : SessionState :=
  with_password (Some p) (with_username (Some u) empty_session).

(** Alice, just logged in. *)
Definition sample_logged_in : AppState :=
  run sample_env [Rerun; SubmitCredentials "alice" "wonderland"] initial_state.

(** Alice, logged in, after one answered question. *)
Definition sample_state : AppState :=
  run sample_env
    [Rerun; SubmitCredentials "alice" "wonderland";
     SubmitQuestion "What is the refund policy?"]
    initial_state.

(** ** The bundles: [load_localization] and [load_rails]

    The two CSV files are read into data frames; a frame is the list of its
    rows, in file order.  Both files have the columns [key] and [value] and a
    column that scopes a row ([locale], respectively [username]). *)

Record Row : Type := {
  row_scope : string;
  row_key : string;
  row_value : string
}.

(** [d[k] = v] on a Python dictionary, kept as the list of its items in
    insertion order: a key that is already there keeps its place. *)
Fixpoint dict_set (k v : string) (d : list (string * string)) : list (string * string) :=
  match d with
  | [] => [(k, v)]
  | (k', v') :: rest =>
      if decide (k = k') then (k, v) :: rest else (k', v') :: dict_set k v rest
  end.

(** [d.get(k)] *)
Fixpoint dict_get (k : string) (d : list (string * string)) : option string :=
  match d with
  | [] => None
  | (k', v') :: rest => if decide (k = k') then Some v' else dict_get k rest
  end.

(** The comprehension
    [{df.key.to_list()[i]: df.value.to_list()[i] for i in range(len(...))}]. *)
Definition dict_of_rows (df : list Row) : list (string * string) :=
  fold_left (fun d row => dict_set (row_key row) (row_value row) d) df [].

(** The rows of a given scope, which is what [df.query] selects for a name
    that the query expression takes as it is. *)
Definition rows_of (name : string) (df : list Row) : list Row :=
  filter (fun row => row_scope row = name) df.

Module Bundle.
Section Bundle.
(** [df.query(f"locale == '{name}'")] and [df.query(f"username == '{name}'")],
    by the name. *)
Variable query : string -> list Row -> list Row.

Definition load_localization (csv : list Row) (locale : string)
    : list (string * string) :=
  let df := query locale csv in
  dict_of_rows df.

Definition load_rails (csv : list Row) (uname : string) : list (string * string) :=
  let df := query uname csv in
  let df := if decide (df = []) then query "datastax" csv else df in
  dict_of_rows df.
End Bundle.
End Bundle.

(** ** Vocabulary of the further properties *)

(** What the stream handler shows: after each token, the text so far followed
    by the cursor. *)
Fixpoint drafts (shown : string) (tokens : list string) : list string :=
  match tokens with
  | [] => []
  | token :: rest => ((shown +:+ token) +:+ cursor) :: drafts (shown +:+ token) rest
  end.

(** The tokens appended one after the other. *)
Definition appended (shown : string) (tokens : list string) : string :=
  fold_left String.append tokens shown.

(** The last row of a frame with a given key. *)
Definition last_with_key (k : string) (df : list Row) : option Row :=
  last (filter (fun row => row_key row = k) df).

(** The session carries the id [sid]. *)
Definition has_session_id (sid : string) (st : AppState) : Prop :=
  session_id (session st) = Some sid.

(** The session is [s]. *)
Definition session_is (s : SessionState) (st : AppState) : Prop :=
  session st = s.

(** The call empties a collection of the vector store. *)
Definition is_clear (c : Call) : bool :=
  match c with
  | collection_clear _ => true
  | _ => false
  end.

(** Run from [st], the step only adds calls to the log, none of which
    empties a collection. *)
Definition calm_at {A} (m : Script A) (st : AppState) : Prop :=
  ∃ calls, log (fst (m st)) = log st ++ calls
           ∧ Forall (fun c => is_clear c = false) calls.

Definition calm {A} (m : Script A) : Prop := ∀ st, calm_at m st.

(** What [check_password] shows after a failed attempt. *)
Definition login_error : Call := error "😕 User not known or password incorrect".

(** The event submits credentials that are in the table. *)
Definition accepted (table : gmap string string) (ev : UserEvent) : Prop :=
  ∃ u p, ev = SubmitCredentials u p ∧ table !! u = Some p.

(** Since [st0], nobody has been logged in, nothing but the login error has
    been shown or called, and the stores are untouched. *)
Definition gated (st0 st : AppState) : Prop :=
  password_correct (session st) ≠ Some true
  ∧ histories st = histories st0
  ∧ collections st = collections st0
  ∧ ∃ calls, log st = log st0 ++ calls ∧ Forall (fun c => c = login_error) calls.

(** Events that neither ask a question nor delete the context. *)
Definition leaves_messages (ev : UserEvent) : bool :=
  match ev with
  | SubmitQuestion q => String.eqb q ""
  | SubmitDeleteContext => false
  | _ => true
  end.

(** A world whose file system refuses the staging write. *)
Definition sample_env_disk_full : Env :=
  {| passwords := passwords sample_env;
     languages := languages sample_env;
     delete_option := delete_option sample_env;
     localization := localization sample_env;
     rails := rails sample_env;
     welcome_text := welcome_text sample_env;
     uuid4 := uuid4 sample_env;
     split_text := split_text sample_env;
     decode := decode sample_env;
     basename := basename sample_env;
     normpath := normpath sample_env;
     answer_search := answer_search sample_env;
     answer_model := answer_model sample_env;
     answer_history_read := answer_history_read sample_env;
     answer_staging := fun _ _ => Raised OSError;
     answer_pdf := answer_pdf sample_env;
     answer_construct := answer_construct sample_env |}.

(** A world whose PDF loader finds two pages. *)
Definition sample_pages : list Document :=
  [ {| page_content := "Refunds are processed within 14 days.";
       metadata := {[ "source" := "/tmp/x/policy.pdf"; "page" := "0" ]} |};
    {| page_content := "Contact support for exchanges.";
       metadata := {[ "source" := "/tmp/x/policy.pdf"; "page" := "1" ]} |} ].

Definition sample_env_pdf : Env :=
  {| passwords := passwords sample_env;
     languages := languages sample_env;
     delete_option := delete_option sample_env;
     localization := localization sample_env;
     rails := rails sample_env;
     welcome_text := welcome_text sample_env;
     uuid4 := uuid4 sample_env;
     split_text := split_text sample_env;
     decode := decode sample_env;
     basename := basename sample_env;
     normpath := normpath sample_env;
     answer_search := answer_search sample_env;
     answer_model := answer_model sample_env;
     answer_history_read := answer_history_read sample_env;
     answer_staging := answer_staging sample_env;
     answer_pdf := fun _ _ => Ok sample_pages;
     answer_construct := answer_construct sample_env |}.

Definition sample_localization_csv : list Row :=
  [ {| row_scope := "en"; row_key := "assistant_welcome"; row_value := "Welcome" |};
    {| row_scope := "nl"; row_key := "assistant_welcome"; row_value := "Welkom" |};
    {| row_scope := "en"; row_key := "sources_used"; row_value := "Sources used" |};
    {| row_scope := "en"; row_key := "assistant_welcome"; row_value := "Hello" |} ].

Definition sample_rails_csv : list Row :=
  [ {| row_scope := "datastax"; row_key := "1"; row_value := "What is Astra DB?" |};
    {| row_scope := "alice"; row_key := "1"; row_value := "What is the refund policy?" |};
    {| row_scope := "datastax"; row_key := "2"; row_value := "What is a vector?" |};
    {| row_scope := "alice"; row_key := "1"; row_value := "How do I get a refund?" |};
    {| row_scope := "alice"; row_key := "2"; row_value := "Whom do I call?" |} ].

(** * Properties *)

(** ** Authentication *)

Lemma compare_digest_ascii a b :
  is_ascii a = true -> is_ascii b = true ->
  compare_digest a b = Ok (String.eqb a b).
Proof. intros Ha Hb. unfold compare_digest. by rewrite Ha, Hb. Qed.

Lemma compare_digest_non_ascii a b :
  is_ascii a = false -> compare_digest a b = Raised TypeError.
Proof. intros Ha. unfold compare_digest. by rewrite Ha. Qed.

(** A user name that is not in the table never reaches the comparison. *)
Lemma password_entered_unknown_user table s u :
  username s = Some u -> table !! u = None ->
  password_entered table s = Ok (with_password_correct (Some false) s).
Proof.
  intros Hu Hnone. unfold password_entered, credentials_ok.
  rewrite Hu. cbn. by rewrite Hnone.
Qed.

(** On ASCII-only passwords the callback does what its docstring says: it
    removes the entered password from the session exactly when the
    credentials are those of the table (recording the user and setting the
    flag); otherwise the password stays and the only change is the flag, set
    to false. *)
Theorem password_entered_ascii table s u p :
  username s = Some u ->
  password s = Some p ->
  is_ascii p = true ->
  (∀ stored, table !! u = Some stored -> is_ascii stored = true) ->
  (table !! u = Some p ->
     password_entered table s
     = Ok (with_password None (with_user (Some u) (with_password_correct (Some true) s))))
  ∧ (table !! u ≠ Some p ->
     password_entered table s = Ok (with_password_correct (Some false) s))
  ∧ (∀ s', password_entered table s = Ok s' ->
       (password s' = None ↔ credentials_match table s)
       ∧ (password s' = None ∨ password s' = Some p)).
Proof.
  intros Hu Hp Hascii Hstored.
  assert (Hyes : table !! u = Some p ->
     password_entered table s
     = Ok (with_password None (with_user (Some u) (with_password_correct (Some true) s)))).
  { intros Htab. unfold password_entered, credentials_ok.
    rewrite Hu. cbn. rewrite Htab, Hp. cbn.
    rewrite compare_digest_ascii by done. cbn.
    rewrite String.eqb_refl. unfold del_password. cbn. by rewrite Hp. }
  assert (Hno : table !! u ≠ Some p ->
     password_entered table s = Ok (with_password_correct (Some false) s)).
  { intros Htab. unfold password_entered, credentials_ok.
    rewrite Hu. cbn. destruct (table !! u) as [stored|] eqn:Hlook; [|done].
    rewrite Hp. cbn. rewrite compare_digest_ascii by eauto. cbn.
    destruct (String.eqb_spec p stored) as [->|Hne]; [done|]. done. }
  split; [done|]. split; [done|].
  intros s' Hrun.
  destruct (decide (table !! u = Some p)) as [Htab|Htab].
  - rewrite Hyes in Hrun by done. injection Hrun as <-. cbn.
    split; [|by left]. split; [|done]. intros _. by exists u, p.
  - rewrite Hno in Hrun by done. injection Hrun as <-. cbn.
    split; [|by right]. rewrite Hp. split; [done|].
    intros (u' & p' & Hu' & Hp' & Htab'). congruence.
Qed.

Lemma password_entered_ascii_witness :
  password_entered {[ "alice" := "wonderland" ]} (attempt "alice" "wonderland")
  = Ok (with_password None
          (with_user (Some "alice")
             (with_password_correct (Some true) (attempt "alice" "wonderland")))).
Proof.
  refine (proj1 (password_entered_ascii {[ "alice" := "wonderland" ]}
                   (attempt "alice" "wonderland") "alice" "wonderland"
                   eq_refl eq_refl eq_refl _) _).
  - intros stored Hlook. vm_compute in Hlook. by injection Hlook as <-.
  - reflexivity.
Defined.

(** C10: the callback misses the passwords that are not ASCII.  For a known
    user, a non-matching password with a character outside ASCII (here
    U+00E9) makes [hmac.compare_digest] raise: the attempt has not succeeded,
    the entered password stays in the session, yet the flag is not set to
    false, which is what a failed attempt should do. *)
Lemma password_entered_non_ascii_raises :
  let table : gmap string string := {[ "alice" := "wonderland" ]} in
  let s := attempt "alice" (String (Ascii.ascii_of_nat 233) EmptyString) in
  ¬ credentials_match table s
  ∧ password_entered table s = Raised TypeError
  ∧ password_entered table s ≠ Ok (with_password_correct (Some false) s).
Proof.
  cbn zeta. split; [|split].
  - intros (u & p & Hu & Hp & Htab). cbn in Hu, Hp.
    injection Hu as <-. injection Hp as <-. vm_compute in Htab. discriminate.
  - vm_compute. reflexivity.
  - vm_compute. discriminate.
Qed.

(** ** Stepping through a script *)

(** Unfolds the monad and the elementary steps, leaving maps alone. *)
Ltac script_unfold :=
  unfold emit, modify, gets, lift, call, ask, subscript, render, getitem in *;
  unfold mbind, mret, Script_bind, Script_ret, Result_bind, Result_ret in *.

Ltac script_simpl :=
  script_unfold; cbn -[insert lookup union empty singleton Window.load Window.save] in *.

(** ** Memory Window *)

Section WindowFacts.
Variable k : nat.

Lemma save_within (entries : list Exchange) q a :
  length entries ≤ k ->
  Window.save k q a entries
  = drop (length (entries ++ [(q, a)]) - k) (entries ++ [(q, a)]).
Proof.
  intros Hlen. unfold Window.save. cbn zeta.
  rewrite length_app. cbn [length].
  destruct (Nat.ltb_spec k (length entries + 1)) as [Hlt|Hge].
  - replace (length entries + 1 - k) with 1 by lia.
    by destruct (entries ++ [(q, a)]).
  - by replace (length entries + 1 - k) with 0 by lia.
Qed.

Lemma save_length (entries : list Exchange) q a :
  length entries ≤ k -> length (Window.save k q a entries) ≤ k.
Proof.
  intros Hlen. rewrite save_within by done.
  rewrite length_drop, length_app. cbn [length]. lia.
Qed.

(** Saving into a window that respects the bound keeps the last [k] of
    everything that went in. *)
Lemma save_all_from (saved entries : list Exchange) :
  length entries ≤ k ->
  Window.save_all k saved entries
  = drop (length (entries ++ saved) - k) (entries ++ saved).
Proof.
  revert entries. induction saved as [|[q a] saved IH]; intros entries Hlen.
  - cbn. rewrite app_nil_r. by replace (length entries - k) with 0 by lia.
  - cbn [Window.save_all fold_left fst snd].
    change (fold_left _ saved ?w) with (Window.save_all k saved w).
    rewrite IH by (by apply save_length).
    rewrite save_within by done.
    set (grown := entries ++ [(q, a)]).
    assert (Hsplit : entries ++ (q, a) :: saved = grown ++ saved)
      by (unfold grown; rewrite <- app_assoc; reflexivity).
    rewrite Hsplit.
    assert (Hg : length grown = length entries + 1)
      by (unfold grown; rewrite length_app; cbn; lia).
    rewrite !length_app, length_drop.
    destruct (decide (length grown ≤ k)) as [Hle|Hgt].
    + replace (length grown - k) with 0 by lia. cbn [drop].
      f_equal. lia.
    + rewrite <- (drop_app_le grown saved (length grown - k)) by lia.
      rewrite drop_drop. f_equal. lia.
Qed.
End WindowFacts.

Example window_five_saves :
  Window.load 3
    (Window.save_all 3
       [("q1", "a1"); ("q2", "a2"); ("q3", "a3"); ("q4", "a4"); ("q5", "a5")] [])
  = [("q3", "a3"); ("q4", "a4"); ("q5", "a5")].
Proof. reflexivity. Qed.

Example window_two_saves :
  Window.load 3 (Window.save_all 3 [("q1", "a1"); ("q2", "a2")] [])
  = [("q1", "a1"); ("q2", "a2")].
Proof. reflexivity. Qed.

(** C1: after any [n] exchanges saved into the (initially empty) window with
    [k = 3], [load] returns the last [min n 3] of them, in the order they were
    saved; the window itself holds no more than those, the older ones having
    been evicted one per save. *)
Theorem window_load_after_saves (saved : list Exchange) :
  let w := Window.save_all top_k_memory saved [] in
  Window.load top_k_memory w = drop (length saved - top_k_memory) saved
  ∧ length (Window.load top_k_memory w) = Nat.min (length saved) top_k_memory
  ∧ w = drop (length saved - top_k_memory) saved
  ∧ ∀ q a, Window.save_all top_k_memory (saved ++ [(q, a)]) []
           = Window.save top_k_memory q a w.
Proof.
  cbn zeta.
  assert (Hw : Window.save_all top_k_memory saved []
               = drop (length saved - top_k_memory) saved).
  { rewrite save_all_from by (cbn; lia). done. }
  rewrite Hw. unfold Window.load. rewrite length_drop.
  replace (length saved - (length saved - top_k_memory) - top_k_memory) with 0 by lia.
  cbn [drop]. repeat split.
  - rewrite !length_drop. lia.
  - intros q a. rewrite <- Hw. unfold Window.save_all. by rewrite fold_left_app.
Qed.

(** C8: whatever the window holds and whatever its bound, [load] right after
    [clear] gives the empty sequence; in the script, the history read that
    follows [memory.clear()] finds nothing. *)
Theorem window_clear_then_load :
  (∀ k (entries : list Exchange), Window.load k (Window.clear entries) = [])
  ∧ ∀ env memory st,
      let cleared := fst (memory_clear memory st) in
      snd (memory_clear memory st) = Ok tt
      ∧ entries_of (chat_memory memory) cleared = []
      ∧ snd (load_memory_variables env memory cleared)
        = (answer_history_read env (log cleared) (chat_memory memory) ≫= fun _ => Ok []).
Proof.
  split.
  - intros k entries. unfold Window.clear, Window.load. by destruct (0 - k).
  - intros env memory st. cbn zeta. split; [done|].
    assert (Hempty : entries_of (chat_memory memory) (fst (memory_clear memory st)) = []).
    { unfold entries_of, memory_clear. script_simpl. by rewrite lookup_insert_eq. }
    split; [done|].
    set (cleared := fst (memory_clear memory st)) in *.
    unfold load_memory_variables. script_simpl.
    destruct (answer_history_read env _ _) as [[]|e]; script_simpl; [|done].
    f_equal. unfold entries_of in *. script_simpl. rewrite Hempty.
    unfold Window.load. cbn [length]. by destruct (0 - k_window memory).
Qed.

(** ** The sources footer *)

Lemma first_seen_elem (l : list string) x : x ∈ first_seen l ↔ x ∈ l.
Proof.
  induction l as [|y l IH]; cbn; [done|].
  rewrite !elem_of_cons, list_elem_of_filter, IH.
  destruct (decide (x = y)); tauto.
Qed.





Example first_seen_abac : first_seen ["A"; "B"; "A"; "C"] = ["A"; "B"; "C"].
Proof. reflexivity. Qed.




(** ** Ingestion *)







Example windows_of_3000 :
  map length (windows 3000 1500 1400 (replicate 3000 "a"%char)) = [1500; 1500; 200]
  ∧ ceil_div (3000 - 100) 1400 = 3%Z.
Proof. split; by vm_compute. Qed.

Example endswith_samples :
  endswith "notes.txt" "txt" = true
  ∧ endswith "slides.pdf" "pdf" = true
  ∧ endswith "report.docx" "txt" = false
  ∧ endswith "report.docx" "pdf" = false
  ∧ endswith "xt" "txt" = false
  ∧ endswith "NOTES.TXT" "txt" = false
  ∧ endswith "notes.xtxt" "txt" = true.
Proof. repeat split. Qed.

Lemma create_documents_one split (text : string) (md : gmap string string) :
  create_documents split [text] [md]
  = map (fun chunk => {| page_content := chunk; metadata := md |}) (split text).
Proof. cbn. by rewrite app_nil_r. Qed.

(** A name cannot end in both suffixes. *)
Lemma endswith_txt_not_pdf (file_name : string) :
  endswith file_name "txt" = true -> endswith file_name "pdf" = false.
Proof.
  unfold endswith. cbn [String.length].
  destruct (Nat.leb 3 (String.length file_name)); [|done]. cbn [andb].
  intros Htxt%String.eqb_eq. rewrite Htxt. reflexivity.
Qed.




(** C7, as amended: a file whose name ends neither in [txt] nor in [pdf]
    (such as a [.docx]) is staged and then skipped: when the staging write
    succeeds, nothing is split, nothing is added to the vector store, no
    message is shown and no error is raised; the remaining files are
    processed as if it had not been there. *)
Theorem ingest_unsupported_skipped env lang coll file rest st :
  endswith (name file) "txt" = false ->
  endswith (name file) "pdf" = false ->
  answer_staging env (log st) (name file) = Ok tt ->
  let staged := with_log (log st ++ [staging_write (name file) (Ok tt)]) st in
  vectorize_text env lang coll (Some file :: rest) st
  = vectorize_text env lang coll rest staged
  ∧ vectorize_text env lang coll [Some file] st = (staged, Ok tt)
  ∧ collections staged = collections st
  ∧ stored_batches (new_calls st staged) = [].
Proof.
  intros Htxt Hpdf Hstage. cbn zeta.
  cbn [vectorize_text]. rewrite Htxt, Hpdf. unfold stage. script_simpl.
  rewrite Hstage. script_simpl.
  split; [by destruct (vectorize_text _ _ _ _ _) as [? []]|].
  split; [done|]. split; [done|].
  unfold new_calls. cbn [log with_log]. by rewrite drop_app_length.
Qed.

Lemma ingest_unsupported_skipped_witness :
  vectorize_text sample_env sample_lang "vector_context_alice"
    [Some {| name := "report.docx"; getvalue := "PK" |}] initial_state
  = (with_log [staging_write "report.docx" (Ok tt)] initial_state, Ok tt).
Proof.
  exact (proj1 (proj2 (ingest_unsupported_skipped sample_env sample_lang
                  "vector_context_alice"
                  {| name := "report.docx"; getvalue := "PK" |} []
                  initial_state eq_refl eq_refl eq_refl))).
Defined.

(** C7, as stated, fails: the test is on the last three characters of the
    name, not on the extension; [notes.xtxt] has the extension [xtxt], which
    is neither [txt] nor [pdf], and is ingested as a text file. *)
Lemma ingest_xtxt_is_stored :
  let file := {| name := "notes.xtxt"; getvalue := "hello" |} in
  let st' := fst (vectorize_text sample_env sample_lang "vector_context_alice"
                    [Some file] initial_state) in
  extension (name file) = Some "xtxt"
  ∧ "xtxt" ≠ "txt" ∧ "xtxt" ≠ "pdf"
  ∧ documents_of "vector_context_alice" initial_state = []
  ∧ documents_of "vector_context_alice" st'
    = [{| page_content := "hello"; metadata := {[ "source" := "notes.xtxt" ]} |}].
Proof.
  cbn zeta. split; [by vm_compute|]. split; [done|]. split; [done|].
  split; [by vm_compute|]. by vm_compute.
Qed.

(** ** The conversation turn *)

Lemma stream_renders handler tokens st :
  ∃ drafts handler',
    stream handler tokens st
    = (with_log (log st ++ map markdown drafts) st, Ok handler').
Proof.
  revert handler st. induction tokens as [|token tokens IH]; intros handler st.
  - exists [], handler. cbn. rewrite app_nil_r. by destruct st.
  - cbn [stream]. unfold on_llm_new_token. script_simpl.
    destruct (IH {| text := text handler +:+ token |}
                 (with_log (log st ++ [markdown ((text handler +:+ token) +:+ cursor)]) st))
      as (drafts & handler' & ->).
    exists (((text handler +:+ token) +:+ cursor) :: drafts), handler'.
    cbn. by rewrite <- app_assoc.
Qed.

Lemma searches_app (l1 l2 : list Call) : searches (l1 ++ l2) = searches l1 ++ searches l2.
Proof. apply omap_app. Qed.
Lemma search_answers_app (l1 l2 : list Call) :
  search_answers (l1 ++ l2) = search_answers l1 ++ search_answers l2.
Proof. apply omap_app. Qed.
Lemma model_calls_app (l1 l2 : list Call) :
  model_calls (l1 ++ l2) = model_calls l1 ++ model_calls l2.
Proof. apply omap_app. Qed.
Lemma history_writes_app (l1 l2 : list Call) :
  history_writes (l1 ++ l2) = history_writes l1 ++ history_writes l2.
Proof. apply omap_app. Qed.

Lemma searches_markdown drafts : searches (map markdown drafts) = [].
Proof. by induction drafts. Qed.
Lemma search_answers_markdown drafts : search_answers (map markdown drafts) = [].
Proof. by induction drafts. Qed.
Lemma model_calls_markdown drafts : model_calls (map markdown drafts) = [].
Proof. by induction drafts. Qed.
Lemma history_writes_markdown drafts : history_writes (map markdown drafts) = [].
Proof. by induction drafts. Qed.

Lemma new_calls_app st calls st' :
  log st' = log st ++ calls -> new_calls st st' = calls.
Proof. intros Hlog. unfold new_calls. rewrite Hlog. apply drop_app_length. Qed.

(** Symbolic execution of [chat]: split on the next answer of the world. *)
Ltac chat_split H :=
  match type of H with
  | context [answer_history_read ?env ?l ?key] =>
      destruct (answer_history_read env l key) as [[]|?] eqn:?
  | context [answer_model ?env ?l ?i] =>
      destruct (answer_model env l i) as [? [?|?]] eqn:?
  | context [stream ?h ?t ?s] =>
      let drafts := fresh "drafts" in
      let Hs := fresh "Hstream" in
      destruct (stream_renders h t s) as (drafts & ? & Hs); rewrite Hs in H; clear Hs
  | context [answer_search ?env ?l ?c ?q ?k] =>
      destruct (answer_search env l c q k) as [?|?] eqn:?
  | context [?lang !! "sources_used"] =>
      destruct (lang !! "sources_used") eqn:?
  | context [sources_loop ?env ?docs ?c ?l] =>
      destruct (sources_loop env docs c l) as [[? ?]|?] eqn:?
  end.

Ltac chat_run H :=
  unfold chat, append_message, load_memory_variables, chain_invoke,
    get_relevant_documents, save_context in H;
  script_simpl.

(** What is left of a run once the world has answered: the state reached. *)
Ltac chat_leaf H :=
  injection H as <- <-;
  unfold new_calls in *;
  cbn [log with_log session histories collections cache_resource cache_data
         with_session with_histories] in *;
  rewrite <- ?app_assoc, ?drop_app_length in *;
  rewrite ?history_writes_app, ?model_calls_app, ?searches_app, ?search_answers_app,
    ?history_writes_markdown, ?model_calls_markdown, ?searches_markdown,
    ?search_answers_markdown in *;
  cbn [history_writes model_calls searches search_answers omap list_omap app length]
    in *.

(** C5: a turn that raises (the history read, a retrieval, the model, or the
    footer construction failing) stops there: the error is the result of the
    turn, each collaborator has been called at most as often as in a
    successful turn, nothing has been written to the history, and the state
    is the one of before the turn, except that the question is already in the
    message list (after the messages that were there, which are untouched)
    and that the calls made are in the log. *)
Theorem chat_failure_keeps_state env lang retriever memory q st ms e :
  messages (session st) = Some ms ->
  snd (chat env lang retriever memory q st) = Raised e ->
  let st' := fst (chat env lang retriever memory q st) in
  session st' = with_messages (Some (ms ++ [HumanMessage q])) (session st)
  ∧ histories st' = histories st
  ∧ collections st' = collections st
  ∧ cache_resource st' = cache_resource st
  ∧ cache_data st' = cache_data st
  ∧ history_writes (new_calls st st') = []
  ∧ length (model_calls (new_calls st st')) ≤ 1
  ∧ length (searches (new_calls st st')) ≤ 2.
Proof.
  intros Hms Hraised. cbn zeta.
  destruct (chat env lang retriever memory q st) as [st' r] eqn:Hrun.
  cbn [fst snd] in *. subst r.
  chat_run Hrun. rewrite Hms in Hrun. script_simpl.
  repeat (chat_split Hrun; script_simpl);
    first [discriminate Hrun | chat_leaf Hrun; repeat split; lia].
Qed.

Lemma chat_failure_keeps_state_witness :
  let st := sample_logged_in in
  let st' := fst (chat sample_env_model_down sample_lang sample_retriever
                    sample_memory "What is the refund policy?" st) in
  session st'
  = with_messages
      (Some ([AIMessage "assistant_welcome"]
             ++ [HumanMessage "What is the refund policy?"]))
      (session st)
  ∧ histories st' = histories st.
Proof.
  cbn zeta.
  pose proof (chat_failure_keeps_state sample_env_model_down sample_lang
                sample_retriever sample_memory "What is the refund policy?"
                sample_logged_in [AIMessage "assistant_welcome"]
                (ServiceError "chat model")) as Hturn.
  cbn zeta in Hturn.
  destruct Hturn as (Hsession & Hhistories & _).
  - by vm_compute.
  - by vm_compute.
  - split; [exact Hsession | exact Hhistories].
Defined.

(** Nothing between the chat input and the end of the script catches what
    the turn raises. *)
Lemma chat_block_result env lang retriever memory q st (label : string) :
  lang !! "assistant_question" = Some label ->
  q ≠ "" ->
  chat_block env lang retriever memory (SubmitQuestion q) st
  = chat env lang retriever memory q (with_widgets (widgets st ++ [chat_input]) st).
Proof.
  intros Hlabel Hq. unfold chat_block. script_unfold. rewrite Hlabel.
  cbn -[chat]. by destruct (String.eqb_spec q "").
Qed.

(** C3: in a turn whose model invocation completes, the retriever is queried
    exactly twice, both times with the question and [k = 4]: once by the
    chain, whose answer is the context given to the model, and once more
    after the stream; when the turn completes, the stored answer is the
    response followed by the footer computed from the documents of that
    second query. *)
Theorem chat_two_retrieval_queries env lang coll memory q st input response :
  let retriever := {| collection := coll; search_k := top_k_vectorstore |} in
  let st' := fst (chat env lang retriever memory q st) in
  (input, Ok response) ∈ model_calls (new_calls st st') ->
  searches (new_calls st st') = [(coll, q, 4); (coll, q, 4)]
  ∧ ∃ first second,
      search_answers (new_calls st st') = [Ok first; second]
      ∧ context input = first
      ∧ question input = q
      ∧ (snd (chat env lang retriever memory q st) = Ok tt ->
         ∃ docs sources_used answer listed,
           second = Ok docs
           ∧ lang !! "sources_used" = Some sources_used
           ∧ sources_loop env docs (response +:+ sources_header sources_used) []
             = Ok (answer, listed)
           ∧ history_writes (new_calls st st') = [(chat_memory memory, q, answer)]
           ∧ ∃ ms, messages (session st')
                   = Some (ms ++ [HumanMessage q; AIMessage answer])).
Proof.
  cbn zeta. intros Hmodel.
  destruct (chat env lang _ memory q st) as [st' r] eqn:Hrun.
  cbn [fst snd] in *.
  chat_run Hrun.
  destruct (messages (session st)) as [ms|] eqn:Hms; script_simpl.
  2: { chat_leaf Hrun. rewrite drop_all in Hmodel. by apply elem_of_nil in Hmodel. }
  repeat (chat_split Hrun; script_simpl); chat_leaf Hrun;
    first
      [ by apply elem_of_nil in Hmodel
      | apply list_elem_of_singleton in Hmodel;
        first [ discriminate Hmodel | injection Hmodel as -> -> ] ].
  all: split; [done|]; eexists _, _; split; [done|]; split; [done|]; split; [done|].
  all: intros Hok; first [ discriminate Hok | idtac ].
  eexists _, _, _, _. repeat split; eauto.
Qed.

Lemma chat_two_retrieval_queries_witness :
  let q := "What is the refund policy?" in
  let st' := fst (chat sample_env sample_lang sample_retriever sample_memory q
                    sample_logged_in) in
  searches (new_calls sample_logged_in st')
  = [("vector_context_alice", q, 4); ("vector_context_alice", q, 4)].
Proof.
  cbn zeta.
  refine (proj1 (chat_two_retrieval_queries sample_env sample_lang
                   "vector_context_alice" sample_memory
                   "What is the refund policy?" sample_logged_in
                   {| context := [sample_doc "policy.txt"];
                      chat_history := [];
                      question := "What is the refund policy?" |}
                   "Within 14 days." _)).
  vm_compute. left.
Defined.

(** The two queries of one turn may be answered differently; the footer
    follows the second answer. *)
Example chat_footer_from_second_query :
  let q := "What is the refund policy?" in
  let st' := fst (chat sample_env sample_lang sample_retriever sample_memory q
                    sample_logged_in) in
  search_answers (new_calls sample_logged_in st')
  = [Ok [sample_doc "policy.txt"];
     Ok [sample_doc "A"; sample_doc "B"; sample_doc "A"; sample_doc "C"]]
  ∧ history_writes (new_calls sample_logged_in st')
    = [("alice_7c9e", q,
        footer_text sample_env ("Within 14 days." +:+ sources_header "sources_used")
                    ["A"; "B"; "C"])].
Proof. cbn zeta. split; by vm_compute. Qed.

(** ** Logout and the two deletions *)

(** C6, as amended: logout removes the flag, the user and the message list
    from the session and clears both caches; deleting the context empties the
    vector store and the memory window and resets the message list to the
    welcome message, the cached handles staying; deleting the memory only
    empties the memory window, the message list and the cached handles
    staying. *)
Theorem teardown_effects (lang : gmap string string) vectorstore memory st
    flag u ms (welcome : string) :
  password_correct (session st) = Some flag ->
  user (session st) = Some u ->
  messages (session st) = Some ms ->
  is_Some (lang !! "deleting_memory") ->
  is_Some (lang !! "deleting_context") ->
  lang !! "assistant_welcome" = Some welcome ->
  logout st
  = (with_cache_data ∅
       (with_cache_resource ∅
          (with_session
             (with_messages None
                (with_user None (with_password_correct None (session st)))) st)),
     Ok tt)
  ∧ (let st' := fst (delete_context_submitted lang vectorstore memory st) in
     snd (delete_context_submitted lang vectorstore memory st) = Ok tt
     ∧ session st' = with_messages (Some [AIMessage welcome]) (session st)
     ∧ documents_of vectorstore st' = []
     ∧ entries_of (chat_memory memory) st' = []
     ∧ cache_resource st' = cache_resource st
     ∧ cache_data st' = cache_data st)
  ∧ (let st' := fst (delete_memory_submitted lang memory st) in
     snd (delete_memory_submitted lang memory st) = Ok tt
     ∧ entries_of (chat_memory memory) st' = []
     ∧ session st' = session st
     ∧ collections st' = collections st
     ∧ cache_resource st' = cache_resource st
     ∧ cache_data st' = cache_data st).
Proof.
  intros Hflag Huser Hms [spin1 Hspin1] [spin2 Hspin2] Hwelcome.
  split; [|split].
  - unfold logout, del_key, del_password_correct, del_user, del_messages.
    script_simpl. rewrite Hflag. script_simpl. rewrite Huser. script_simpl.
    rewrite Hms. script_simpl. done.
  - unfold delete_context_submitted, vectorstore_clear, memory_clear,
      welcome_messages, set_messages.
    script_simpl. rewrite Hspin2. script_simpl. rewrite Hwelcome. script_simpl.
    repeat split; try done.
    + unfold documents_of. script_simpl. by rewrite lookup_insert_eq.
    + unfold entries_of. script_simpl. by rewrite lookup_insert_eq.
  - unfold delete_memory_submitted, memory_clear.
    script_simpl. rewrite Hspin1. script_simpl.
    repeat split; try done.
    unfold entries_of. script_simpl. by rewrite lookup_insert_eq.
Qed.

Lemma teardown_effects_witness :
  logout sample_state
  = (with_cache_data ∅
       (with_cache_resource ∅
          (with_session
             (with_messages None
                (with_user None
                   (with_password_correct None (session sample_state))))
             sample_state)),
     Ok tt).
Proof.
  refine (proj1 (teardown_effects sample_lang "vector_context_alice" sample_memory
                   sample_state true "alice" _ "assistant_welcome"
                   _ _ _ _ _ _)).
  - by vm_compute.
  - by vm_compute.
  - vm_compute. reflexivity.
  - vm_compute. eauto.
  - vm_compute. eauto.
  - by vm_compute.
Defined.

(** C6, as stated, fails: after one answered question, deleting the memory
    leaves the three messages and every cached handle in place, and deleting
    the context leaves the cached handles in place. *)
Lemma delete_memory_is_no_teardown :
  let st := sample_state in
  let after_memory := fst (delete_memory_submitted sample_lang sample_memory st) in
  let after_context :=
    fst (delete_context_submitted sample_lang "vector_context_alice" sample_memory st) in
  (length <$> messages (session st)) = Some 3
  ∧ messages (session after_memory) = messages (session st)
  ∧ messages (session after_memory) ≠ Some [AIMessage "assistant_welcome"]
  ∧ size (cache_resource st) = 6
  ∧ size (cache_resource after_memory) = 6
  ∧ size (cache_resource after_context) = 6
  ∧ cache_resource after_memory !! "load_memory()" = Some "alice_7c9e"
  ∧ cache_resource after_context !! "load_retriever()" = Some "vector_context_alice".
Proof.
  cbn zeta. repeat split; try (vm_compute; reflexivity).
  vm_compute. discriminate.
Qed.

(** ** The message list starts with the welcome message *)

Section Quiet.
Context {A B : Type}.

Lemma quiet_ret (a : A) : quiet (mret a : Script A).
Proof. by intros st. Qed.

Lemma quiet_lift (r : Result A) : quiet (lift r).
Proof. by intros st. Qed.

Lemma quiet_gets (f : AppState -> A) : quiet (gets f).
Proof. by intros st. Qed.

Lemma quiet_bind (m : Script A) (f : A -> Script B) :
  quiet m -> (∀ a, quiet (f a)) -> quiet (m ≫= f).
Proof.
  intros Hm Hf st. specialize (Hm st).
  unfold mbind, Script_bind. destruct (m st) as [st1 [a|e]]; [|done].
  cbn [fst] in Hm. destruct Hm as [Hs Hw], (Hf a st1) as [Hs' Hw'].
  split; [congruence | auto].
Qed.

Lemma quiet_ask (answer : list Call -> A) (record : A -> Call) :
  quiet (ask answer record).
Proof. by intros st. Qed.
End Quiet.

Lemma quiet_call {A} (answer : list Call -> Result A) (record : Result A -> Call) :
  quiet (call answer record).
Proof. apply quiet_bind; [apply quiet_ask | intros r; apply quiet_lift]. Qed.

Lemma quiet_modify (f : AppState -> AppState) :
  (∀ st, session (f st) = session st ∧ widgets (f st) = widgets st) ->
  quiet (modify f).
Proof. intros Hf st. cbn. destruct (Hf st) as [-> ->]. done. Qed.

Lemma quiet_emit c : quiet (emit c).
Proof. by apply quiet_modify. Qed.

Lemma quiet_render w : w ≠ credentials_form -> quiet (render w).
Proof.
  intros Hw st. cbn. split; [done|].
  rewrite elem_of_app, list_elem_of_singleton. intros [?|?]; [done|congruence].
Qed.

Lemma quiet_subscript d key : quiet (subscript d key).
Proof. apply quiet_lift. Qed.

(** Decomposes a script into its steps and closes the elementary ones. *)
Ltac quiet_steps :=
  repeat first
    [ apply quiet_bind; [|intros ?]
    | apply quiet_ret | apply quiet_lift | apply quiet_gets | apply quiet_emit
    | apply quiet_subscript | apply quiet_call | apply quiet_ask
    | apply quiet_render; discriminate
    | apply quiet_modify; intros ?; split; reflexivity
    | match goal with
      | |- quiet (match ?x with _ => _ end) => destruct x
      end ];
  try assumption.

Section QuietScript.
Variable env : Env.

Lemma quiet_cached_resource memo_key body :
  quiet body -> quiet (cached_resource memo_key body).
Proof. intros Hbody. unfold cached_resource. quiet_steps. Qed.

Lemma quiet_cached_data {A} memo_key (value : A) : quiet (cached_data memo_key value).
Proof. unfold cached_data. quiet_steps. Qed.

Lemma quiet_constructing memo_key : quiet (constructing env memo_key).
Proof. unfold constructing. quiet_steps. Qed.

Lemma quiet_load_localization locale : quiet (load_localization env locale).
Proof. apply quiet_cached_data. Qed.

Lemma quiet_load_rails uname : quiet (load_rails env uname).
Proof. apply quiet_cached_data. Qed.

Lemma quiet_load_prompt : quiet load_prompt.
Proof. apply quiet_cached_data. Qed.

Lemma quiet_load_embedding : quiet (load_embedding env).
Proof. apply quiet_cached_resource. quiet_steps. Qed.

Lemma quiet_load_vectorstore uname : quiet (load_vectorstore env uname).
Proof. apply quiet_cached_resource. quiet_steps. Qed.

Lemma quiet_load_retriever vectorstore : quiet (load_retriever vectorstore).
Proof.
  unfold load_retriever. apply quiet_bind; [|intros ?; apply quiet_ret].
  apply quiet_cached_resource, quiet_ret.
Qed.

Lemma quiet_load_model : quiet (load_model env).
Proof. apply quiet_cached_resource. quiet_steps. Qed.

Lemma quiet_load_chat_history uname : quiet (load_chat_history env uname).
Proof. apply quiet_cached_resource. quiet_steps. Qed.

Lemma quiet_load_memory history_handle : quiet (load_memory history_handle).
Proof.
  unfold load_memory. apply quiet_bind; [|intros ?; apply quiet_ret].
  apply quiet_cached_resource, quiet_ret.
Qed.

Lemma quiet_spinner_texts lang_dict : quiet (spinner_texts lang_dict).
Proof. unfold spinner_texts. quiet_steps. Qed.

Lemma quiet_logout_block lang_dict : quiet (logout_block lang_dict).
Proof. unfold logout_block. quiet_steps. Qed.

Lemma quiet_vectorstore_add_documents coll docs :
  quiet (vectorstore_add_documents coll docs).
Proof. unfold vectorstore_add_documents. quiet_steps. Qed.

Lemma quiet_vectorstore_clear coll : quiet (vectorstore_clear coll).
Proof. unfold vectorstore_clear. quiet_steps. Qed.

Lemma quiet_memory_clear memory : quiet (memory_clear memory).
Proof. unfold memory_clear. quiet_steps. Qed.

Lemma quiet_save_context memory q answer : quiet (save_context memory q answer).
Proof. unfold save_context. quiet_steps. Qed.

Lemma quiet_load_memory_variables memory : quiet (load_memory_variables env memory).
Proof. unfold load_memory_variables. quiet_steps. Qed.

Lemma quiet_get_relevant_documents retriever query :
  quiet (get_relevant_documents env retriever query).
Proof. unfold get_relevant_documents. quiet_steps. Qed.

Lemma quiet_stream handler tokens : quiet (stream handler tokens).
Proof.
  revert handler. induction tokens as [|token tokens IH]; intros handler;
    cbn [stream]; [apply quiet_ret|].
  apply quiet_bind; [|intros ?; apply IH].
  unfold on_llm_new_token. quiet_steps.
Qed.

Lemma quiet_chain_invoke retriever q history :
  quiet (chain_invoke env retriever q history).
Proof.
  unfold chain_invoke.
  apply quiet_bind; [apply quiet_get_relevant_documents|intros ?].
  apply quiet_bind; [apply quiet_ask|intros ?].
  apply quiet_bind; [apply quiet_stream|intros ?]. apply quiet_lift.
Qed.

Lemma quiet_vectorize_text lang_dict vectorstore uploaded_files :
  quiet (vectorize_text env lang_dict vectorstore uploaded_files).
Proof.
  induction uploaded_files as [|[file|] rest IH]; cbn [vectorize_text];
    [apply quiet_ret| |exact IH].
  apply quiet_bind; [unfold stage; quiet_steps|intros ?].
  apply quiet_bind; [|intros ?].
  { destruct (endswith _ _); [|apply quiet_ret].
    unfold vectorize_txt. apply quiet_bind; [apply quiet_lift|intros ?].
    apply quiet_bind; [apply quiet_vectorstore_add_documents|intros ?].
    quiet_steps. }
  apply quiet_bind; [|intros ?; exact IH].
  destruct (endswith _ _); [|apply quiet_ret].
  unfold vectorize_pdf. apply quiet_bind; [apply quiet_call|intros ?].
  apply quiet_bind; [apply quiet_vectorstore_add_documents|intros ?].
  quiet_steps.
Qed.

Lemma quiet_upload_block lang_dict vectorstore ev :
  quiet (upload_block env lang_dict vectorstore ev).
Proof.
  unfold upload_block.
  do 3 (apply quiet_bind; [quiet_steps|intros ?]).
  destruct ev; try apply quiet_ret. apply quiet_vectorize_text.
Qed.

Lemma quiet_delete_memory_block lang_dict memory ev :
  quiet (delete_memory_block lang_dict memory ev).
Proof.
  unfold delete_memory_block, delete_memory_submitted.
  do 3 (apply quiet_bind; [quiet_steps|intros ?]).
  destruct ev; try apply quiet_ret.
  apply quiet_bind; [apply quiet_subscript|intros ?]. apply quiet_memory_clear.
Qed.

Lemma quiet_draw_all lines : quiet (draw_all lines).
Proof.
  induction lines as [|line lines IH]; cbn [draw_all]; [apply quiet_ret|].
  apply quiet_bind; [apply quiet_emit|intros ?; exact IH].
Qed.

Lemma quiet_draw_rails lang_dict rails_dict : quiet (draw_rails lang_dict rails_dict).
Proof.
  unfold draw_rails. do 2 (apply quiet_bind; [quiet_steps|intros ?]).
  apply quiet_draw_all.
Qed.

Lemma quiet_draw_messages : quiet draw_messages.
Proof.
  unfold draw_messages. do 2 (apply quiet_bind; [quiet_steps|intros ?]).
  apply quiet_draw_all.
Qed.
End QuietScript.

(** The blocks of the page that are known to be quiet. *)
Ltac quiet_block :=
  lazymatch goal with
  | |- quiet (emit _) => apply quiet_emit
  | |- quiet (mret _) => apply quiet_ret
  | |- quiet (subscript _ _) => apply quiet_subscript
  | |- quiet (render _) => apply quiet_render; discriminate
  | |- quiet (load_localization _ _) => apply quiet_load_localization
  | |- quiet (load_rails _ _) => apply quiet_load_rails
  | |- quiet load_prompt => apply quiet_load_prompt
  | |- quiet (load_embedding _) => apply quiet_load_embedding
  | |- quiet (load_vectorstore _ _) => apply quiet_load_vectorstore
  | |- quiet (load_retriever _) => apply quiet_load_retriever
  | |- quiet (load_model _) => apply quiet_load_model
  | |- quiet (load_chat_history _ _) => apply quiet_load_chat_history
  | |- quiet (load_memory _) => apply quiet_load_memory
  | |- quiet (spinner_texts _) => apply quiet_spinner_texts
  | |- quiet (logout_block _) => apply quiet_logout_block
  | |- quiet (vectorstore_clear _) => apply quiet_vectorstore_clear
  | |- quiet (memory_clear _) => apply quiet_memory_clear
  | |- quiet (save_context _ _ _) => apply quiet_save_context
  | |- quiet (load_memory_variables _ _) => apply quiet_load_memory_variables
  | |- quiet (get_relevant_documents _ _ _) => apply quiet_get_relevant_documents
  | |- quiet (chain_invoke _ _ _ _) => apply quiet_chain_invoke
  | |- quiet (upload_block _ _ _ _) => apply quiet_upload_block
  | |- quiet (delete_memory_block _ _ _) => apply quiet_delete_memory_block
  | |- quiet (draw_rails _ _) => apply quiet_draw_rails
  | |- quiet draw_messages => apply quiet_draw_messages
  | |- quiet (lift _) => apply quiet_lift
  end.

Section Keeps.
Context {A B : Type} (P : AppState -> Prop).

Lemma keeps_bind (m : Script A) (f : A -> Script B) :
  keeps P m -> (∀ a, keeps P (f a)) -> keeps P (m ≫= f).
Proof.
  intros Hm Hf st HP. specialize (Hm st HP).
  unfold mbind, Script_bind. destruct (m st) as [st1 [a|e]]; [|done].
  by apply Hf.
Qed.

End Keeps.

(** Walks along a chain of binds, closing every step with [tac]. *)
Ltac keeps_steps tac :=
  lazymatch goal with
  | |- keeps _ (_ ≫= _) => apply keeps_bind; [tac | intros ?; keeps_steps tac]
  | |- _ => tac
  end.

Section Welcome.
Variable env : Env.
Variable u : string.








End Welcome.

Section PageInvariant.
Variable env : Env.




Lemma page_unfold ev st :
  page env ev st
  = match init_session_id env (with_widgets [] st) with
    | (st1, Ok _) =>
        match check_password st1 with
        | (st2, Ok logged_in) =>
            (if (logged_in : bool) then main_page env ev else mret tt) st2
        | (st2, Raised e) => (st2, Raised e)
        end
    | (st1, Raised e) => (st1, Raised e)
    end.
Proof. reflexivity. Qed.

Lemma init_session_id_spec st :
  ∃ st1,
    init_session_id env st = (st1, Ok tt)
    ∧ widgets st1 = widgets st
    ∧ password_correct (session st1) = password_correct (session st)
    ∧ user (session st1) = user (session st)
    ∧ messages (session st1) = messages (session st).
Proof.
  unfold init_session_id. script_simpl.
  destruct (session_id (session st)); script_simpl; eauto 10.
Qed.

Lemma check_password_spec st :
  (password_correct (session st) = Some true ∧ check_password st = (st, Ok true))
  ∨ (password_correct (session st) ≠ Some true
     ∧ ∃ st1,
         check_password st = (st1, Ok false)
         ∧ widgets st1 = widgets st ++ [credentials_form]
         ∧ password_correct (session st1) = password_correct (session st)
         ∧ user (session st1) = user (session st)
         ∧ messages (session st1) = messages (session st)).
Proof.
  unfold check_password, login_form. script_simpl.
  destruct (password_correct (session st)) as [[|]|] eqn:Hpc; script_simpl;
    rewrite ?Hpc; script_simpl.
  - by left.
  - right. split; [done|]. eauto 10.
  - right. split; [done|]. eauto 10.
Qed.




Lemma handle_unfold ev st :
  handle env ev st
  = (if match widget_of ev with
        | Some w => bool_decide (w ∈ widgets st)
        | None => true
        end
     then callback env ev ≫= (fun _ => page env ev)
     else mret tt) st.
Proof. reflexivity. Qed.


End PageInvariant.

Example sample_state_messages :
  (map type <$> messages (session sample_state)) = Some [ai; human; ai]
  ∧ (head <$> messages (session sample_state))
    = Some (welcome_of sample_env "alice").
Proof. split; by vm_compute. Qed.

(** Logging out and in again starts a new list. *)
Example messages_after_relogin :
  messages (session (run sample_env
                       [ClickLogout; SubmitCredentials "alice" "wonderland"]
                       sample_state))
  = Some [AIMessage "assistant_welcome"].
Proof. by vm_compute. Qed.

(** A wrong password leaves the visitor on the login form, without messages. *)
Example messages_after_failed_login :
  let st := run sample_env [Rerun; SubmitCredentials "alice" "guess"] initial_state in
  messages (session st) = None
  ∧ password_correct (session st) = Some false
  ∧ password (session st) = Some "guess"
  ∧ widgets st = [credentials_form].
Proof. cbn zeta. repeat split; by vm_compute. Qed.


(** * Further properties of the script *)

(** ** The stream handler *)

Lemma appended_app shown tokens token :
  appended shown (tokens ++ [token]) = appended shown tokens +:+ token.
Proof. unfold appended. by rewrite fold_left_app. Qed.

Lemma drafts_length shown tokens : length (drafts shown tokens) = length tokens.
Proof.
  revert shown. induction tokens as [|token tokens IH]; intros shown; [done|].
  cbn. by rewrite IH.
Qed.

Lemma drafts_last shown token tokens :
  last (drafts shown (token :: tokens))
  = Some (appended shown (token :: tokens) +:+ cursor).
Proof.
  revert shown token. induction tokens as [|token' tokens IH]; intros shown token;
    [done|].
  cbn [drafts]. rewrite last_cons. cbn [drafts] in IH. by rewrite IH.
Qed.

Lemma stream_drafts handler tokens st :
  stream handler tokens st
  = (with_log (log st ++ map markdown (drafts (text handler) tokens)) st,
     Ok {| text := appended (text handler) tokens |}).
Proof.
  revert handler st. induction tokens as [|token tokens IH]; intros handler st.
  - cbn. rewrite app_nil_r. by destruct st, handler.
  - cbn [stream drafts map]. unfold on_llm_new_token. script_simpl.
    rewrite IH. cbn. by rewrite <- app_assoc.
Qed.

(** X1: the handler shows one draft per token, each the text received so far
    followed by the cursor, and ends up holding all the tokens appended to
    its initial text; it changes nothing else and never raises. *)
Theorem stream_accumulates handler tokens st :
  stream handler tokens st
  = (with_log (log st ++ map markdown (drafts (text handler) tokens)) st,
     Ok {| text := appended (text handler) tokens |})
  ∧ length (drafts (text handler) tokens) = length tokens
  ∧ last (drafts (text handler) tokens)
    = (if tokens is [] then None
       else Some (appended (text handler) tokens +:+ cursor)).
Proof.
  split; [apply stream_drafts|]. split; [apply drafts_length|].
  destruct tokens as [|token tokens]; [done|]. apply drafts_last.
Qed.

Example stream_two_tokens :
  drafts "" ["Within "; "14 days."] = ["Within " +:+ cursor; "Within 14 days." +:+ cursor]
  ∧ appended "" ["Within "; "14 days."] = "Within 14 days.".
Proof. split; reflexivity. Qed.

(** ** The footer loop on documents without a source *)

Lemma sources_loop_raises env (docs : list Document) content sources e :
  sources_loop env docs content sources = Raised e ->
  e = KeyError "source" ∧ ∃ doc, doc ∈ docs ∧ metadata doc !! "source" = None.
Proof.
  revert content sources. induction docs as [|doc docs IH]; intros content sources;
    [done|].
  cbn [sources_loop]. unfold getitem, mbind, Result_bind.
  destruct (metadata doc !! "source") as [source|] eqn:Hsource.
  - intros Hrest.
    assert (∃ c l, sources_loop env docs c l = Raised e) as (c & l & Hloop)
      by (destruct (decide (source ∈ sources)); eauto).
    destruct (IH c l Hloop) as (-> & doc' & Hin & Hnone).
    split; [done|]. exists doc'. split; [by right|done].
  - intros [= <-]. split; [done|]. exists doc. split; [by left|done].
Qed.

Lemma sources_loop_ok env (docs : list Document) content sources :
  Forall (fun doc => is_Some (metadata doc !! "source")) docs ->
  ∃ result, sources_loop env docs content sources = Ok result.
Proof.
  revert content sources. induction docs as [|doc docs IH]; intros content sources Hall.
  - by eexists.
  - apply Forall_cons in Hall as [[source Hsource] Hall].
    cbn [sources_loop]. rewrite Hsource. unfold getitem, mbind, Result_bind.
    destruct (decide (source ∈ sources)); by apply IH.
Qed.

(** X2: the footer loop raises exactly when one of the retrieved documents
    has no ['source'] in its metadata, and then the exception is the
    [KeyError] of that subscript; wherever the offending document stands,
    nothing of the footer is returned. *)
Theorem sources_loop_raises_iff env (docs : list Document) content sources :
  (is_raised (sources_loop env docs content sources) = true
   ↔ ∃ doc, doc ∈ docs ∧ metadata doc !! "source" = None)
  ∧ (is_raised (sources_loop env docs content sources) = true ->
     sources_loop env docs content sources = Raised (KeyError "source")).
Proof.
  split; [split|].
  - destruct (sources_loop env docs content sources) as [?|e] eqn:Hloop; [done|].
    intros _. by destruct (sources_loop_raises _ _ _ _ _ Hloop) as [_ ?].
  - intros (doc & Hin & Hnone).
    destruct (sources_loop env docs content sources) as [result|e] eqn:Hloop; [|done].
    exfalso. revert content sources result Hloop.
    induction docs as [|doc' docs IH]; intros content sources result Hloop.
    + by apply elem_of_nil in Hin.
    + cbn [sources_loop] in Hloop. unfold getitem, mbind, Result_bind in Hloop.
      apply elem_of_cons in Hin as [<-|Hin].
      * by rewrite Hnone in Hloop.
      * destruct (metadata doc' !! "source") as [source|]; [|done].
        destruct (decide (source ∈ sources)); eapply IH; eauto.
  - destruct (sources_loop env docs content sources) as [?|e] eqn:Hloop; [done|].
    intros _. by destruct (sources_loop_raises _ _ _ _ _ Hloop) as [-> _].
Qed.

Example sources_loop_missing_source :
  sources_loop sample_env
    [sample_doc "A"; {| page_content := "no source"; metadata := ∅ |}; sample_doc "B"]
    "answer" []
  = Raised (KeyError "source").
Proof. by vm_compute. Qed.

(** ** Login and logout *)

(** X3: whatever comes of an authentication attempt that does not raise, the
    callback leaves the session id, the user name typed and the message list
    as they are; it either records the typed name as the user, sets the flag
    and forgets the password, or changes nothing but the flag, set to
    false.  A user name that is not in the table gives the second outcome
    for every password, without the passwords being compared. *)
Theorem password_entered_outcomes table s :
  (∀ s', password_entered table s = Ok s' ->
     session_id s' = session_id s
     ∧ username s' = username s
     ∧ messages s' = messages s
     ∧ ((password_correct s' = Some true ∧ user s' = username s ∧ password s' = None
         ∧ ∃ u p, username s = Some u ∧ password s = Some p ∧ table !! u = Some p)
        ∨ s' = with_password_correct (Some false) s))
  ∧ (∀ u, username s = Some u -> table !! u = None ->
       password_entered table s = Ok (with_password_correct (Some false) s))
  ∧ (username s = None -> password_entered table s = Raised (KeyError "username")).
Proof.
  split; [|split].
  - intros s'. unfold password_entered, credentials_ok, del_password. script_simpl.
    destruct (username s) as [u|] eqn:Hu; script_simpl; [|done].
    destruct (table !! u) as [stored|] eqn:Htab; script_simpl.
    + destruct (password s) as [p|] eqn:Hp; script_simpl; [|done].
      unfold compare_digest.
      destruct (is_ascii p && is_ascii stored); script_simpl; [|done].
      destruct (String.eqb_spec p stored) as [->|Hne]; script_simpl;
        intros [= <-]; cbn; repeat split; try done.
      * left. repeat split; try done. by exists u, stored.
      * by right.
    + intros [= <-]. repeat split; try done. by right.
  - intros u Hu Htab. unfold password_entered, credentials_ok. script_simpl.
    rewrite Hu. script_simpl. by rewrite Htab.
  - intros Hu. unfold password_entered, credentials_ok. script_simpl.
    by rewrite Hu.
Qed.

Example password_entered_unknown_non_ascii :
  let s := attempt "mallory" (String (Ascii.ascii_of_nat 233) EmptyString) in
  password_entered {[ "alice" := "wonderland" ]} s
  = Ok (with_password_correct (Some false) s).
Proof. by vm_compute. Qed.

(** [check_password] answers true exactly when the flag is set and true,
    and then touches nothing; otherwise it answers false after drawing the
    login form (whose two inputs then exist in the session), and shows the
    error message exactly when the flag exists, that is after an attempt.  It
    never changes the flag, the user or the messages, and never raises. *)
Lemma check_password_cases st :
  let st' := fst (check_password st) in
  snd (check_password st)
  = Ok (bool_decide (password_correct (session st) = Some true))
  ∧ password_correct (session st') = password_correct (session st)
  ∧ user (session st') = user (session st)
  ∧ messages (session st') = messages (session st)
  ∧ session_id (session st') = session_id (session st)
  ∧ match password_correct (session st) with
    | Some true => st' = st
    | flag =>
        widgets st' = widgets st ++ [credentials_form]
        ∧ username (session st') = Some (default "" (username (session st)))
        ∧ password (session st') = Some (default "" (password (session st)))
        ∧ new_calls st st'
          = (if flag is Some _
             then [error "😕 User not known or password incorrect"] else [])
    end.
Proof.
  cbn zeta. unfold check_password, login_form, new_calls. script_simpl.
  destruct (password_correct (session st)) as [[|]|] eqn:Hflag; script_simpl;
    rewrite ?Hflag; script_simpl; repeat split; try done.
  - by rewrite drop_app_length.
  - by rewrite drop_all.
Qed.


Example logout_without_messages :
  let st := with_cache_resource {[ "load_model()" := "" ]}
              (with_session
                 (with_user (Some "alice")
                    (with_password_correct (Some true) empty_session))
                 initial_state) in
  snd (logout st) = Raised (KeyError "messages")
  ∧ password_correct (session (fst (logout st))) = None
  ∧ user (session (fst (logout st))) = None
  ∧ size (cache_resource (fst (logout st))) = 1.
Proof. cbn zeta. repeat split; by vm_compute. Qed.

(** ** Ingestion: which branch, what is stored, where it stops *)

Lemma string_length_app (a b : string) :
  String.length (a +:+ b) = String.length a + String.length b.
Proof.
  induction a as [|c a IH]; [done|].
  change (String c a +:+ b) with (String c (a +:+ b)).
  cbn [String.length]. by rewrite IH.
Qed.

Lemma string_app_assoc (a b c : string) : (a +:+ b) +:+ c = a +:+ (b +:+ c).
Proof.
  induction a as [|x a IH]; [done|].
  change ((String x a +:+ b) +:+ c) with (String x ((a +:+ b) +:+ c)).
  change (String x a +:+ (b +:+ c)) with (String x (a +:+ (b +:+ c))).
  by rewrite IH.
Qed.

Lemma substring_whole (s : string) : String.substring 0 (String.length s) s = s.
Proof.
  induction s as [|c s IH]; [done|].
  cbn [String.length String.substring]. by rewrite IH.
Qed.

Lemma substring_after (p s : string) n :
  String.substring (String.length p) n (p +:+ s) = String.substring 0 n s.
Proof.
  induction p as [|c p IH]; [done|].
  change (String c p +:+ s) with (String c (p +:+ s)).
  cbn [String.length String.substring]. exact IH.
Qed.

Lemma endswith_app (p suffix : string) : endswith (p +:+ suffix) suffix = true.
Proof.
  unfold endswith. rewrite string_length_app.
  rewrite (proj2 (Nat.leb_le _ _)) by lia. cbn [andb].
  replace (String.length p + String.length suffix - String.length suffix)
    with (String.length p) by lia.
  rewrite substring_after, substring_whole. apply String.eqb_refl.
Qed.

Lemma extension_split (file_name e : string) :
  extension file_name = Some e -> ∃ p, file_name = p +:+ String "." e.
Proof.
  revert e. induction file_name as [|c rest IH]; intros e; [done|].
  cbn [extension]. destruct (extension rest) as [e'|].
  - intros [= <-]. destruct (IH e' eq_refl) as [p ->]. by exists (String c p).
  - destruct (Ascii.eqb_spec c "."%char) as [->|]; [|done].
    intros [= <-]. by exists "".
Qed.

Lemma extension_endswith (file_name e : string) :
  extension file_name = Some e -> endswith file_name e = true.
Proof.
  intros [p ->]%extension_split.
  change (String "." e) with ("." +:+ e). rewrite <- string_app_assoc.
  apply endswith_app.
Qed.

Lemma endswith_pdf_not_txt (file_name : string) :
  endswith file_name "pdf" = true -> endswith file_name "txt" = false.
Proof.
  unfold endswith. cbn [String.length].
  destruct (Nat.leb 3 (String.length file_name)); [|done]. cbn [andb].
  intros Hpdf%String.eqb_eq. rewrite Hpdf. reflexivity.
Qed.

(** X5: a file whose extension is [txt] always takes the text branch, and
    only that one: when the staging write and the decoding succeed and the
    bundle has the label, the chunks the splitter makes of the whole decoded
    content are added to the store in order, each tagged with the file name as
    its source, and the message shows their number; this for any splitter. *)
Theorem ingest_txt_stores_chunks env lang coll file (decoded label : string) st :
  extension (name file) = Some "txt" ->
  answer_staging env (log st) (name file) = Ok tt ->
  decode env (getvalue file) = Ok decoded ->
  lang !! "load_text" = Some label ->
  let chunks :=
    map (fun chunk => {| page_content := chunk;
                         metadata := {[ "source" := name file ]} |})
        (split_text env decoded) in
  let st' := fst (vectorize_text env lang coll [Some file] st) in
  snd (vectorize_text env lang coll [Some file] st) = Ok tt
  ∧ documents_of coll st' = documents_of coll st ++ chunks
  ∧ new_calls st st'
    = [staging_write (name file) (Ok tt); add_documents coll chunks;
       info (pretty (length chunks) +:+ " " +:+ label)]
  ∧ session st' = session st
  ∧ histories st' = histories st.
Proof.
  intros Hext Hstage Hdecode Hlabel. cbn zeta.
  pose proof (extension_endswith _ _ Hext) as Htxt.
  pose proof (endswith_txt_not_pdf _ Htxt) as Hpdf.
  cbn [vectorize_text]. rewrite Htxt, Hpdf.
  unfold stage, vectorize_txt, vectorstore_add_documents, new_calls. script_simpl.
  rewrite Hstage. script_simpl. rewrite Hdecode. script_simpl.
  rewrite Hlabel. script_simpl. rewrite !app_nil_r.
  repeat split; try done.
  - unfold documents_of. script_simpl. by rewrite lookup_insert_eq.
  - rewrite <- !app_assoc. by rewrite drop_app_length.
Qed.

Lemma ingest_txt_stores_chunks_witness :
  snd (vectorize_text sample_env sample_lang "vector_context_alice"
         [Some {| name := "faq.v2.txt"; getvalue := "Refunds take 14 days." |}]
         initial_state) = Ok tt.
Proof.
  refine (proj1 (ingest_txt_stores_chunks sample_env sample_lang
                   "vector_context_alice"
                   {| name := "faq.v2.txt"; getvalue := "Refunds take 14 days." |}
                   "Refunds take 14 days." "load_text" initial_state
                   _ eq_refl eq_refl _)).
  - by vm_compute.
  - by vm_compute.
Defined.

(** X6: when the staging write of a file fails, or when a text file cannot
    be decoded, the exception ends the upload on the spot: nothing of that
    file reaches the vector store, and the files after it are not looked
    at. *)
Theorem ingest_stops_before_store env lang coll file rest st e :
  answer_staging env (log st) (name file) = Raised e
  ∨ (answer_staging env (log st) (name file) = Ok tt
     ∧ endswith (name file) "txt" = true
     ∧ decode env (getvalue file) = Raised e) ->
  let st' := fst (vectorize_text env lang coll (Some file :: rest) st) in
  snd (vectorize_text env lang coll (Some file :: rest) st) = Raised e
  ∧ collections st' = collections st
  ∧ (∃ answer, new_calls st st' = [staging_write (name file) answer]).
Proof.
  intros Hfail. cbn zeta. cbn [vectorize_text].
  unfold stage, vectorize_txt, new_calls. script_simpl.
  destruct Hfail as [Hstage|(Hstage & Htxt & Hdecode)];
    rewrite Hstage; script_simpl.
  - repeat split; try done. eexists. by rewrite drop_app_length.
  - rewrite Htxt. script_simpl. rewrite Hdecode. script_simpl.
    repeat split; try done. eexists. by rewrite drop_app_length.
Qed.

Lemma ingest_stops_before_store_witness :
  snd (vectorize_text sample_env_disk_full sample_lang "vector_context_alice"
         [Some {| name := "policy.txt"; getvalue := "Refunds" |};
          Some {| name := "faq.txt"; getvalue := "Questions" |}]
         initial_state) = Raised OSError.
Proof.
  refine (proj1 (ingest_stops_before_store sample_env_disk_full sample_lang
                   "vector_context_alice"
                   {| name := "policy.txt"; getvalue := "Refunds" |}
                   [Some {| name := "faq.txt"; getvalue := "Questions" |}]
                   initial_state OSError _)).
  left. reflexivity.
Defined.

(** X7: ingestion is not undone.  When the bundle lacks the ['load_text']
    label, the chunks of a text file are in the vector store by the time the
    message is built: the [KeyError] comes after the write, the chunks stay,
    and the files after it are not processed. *)
Theorem ingest_txt_label_missing env lang coll file rest (decoded : string) st :
  endswith (name file) "txt" = true ->
  answer_staging env (log st) (name file) = Ok tt ->
  decode env (getvalue file) = Ok decoded ->
  lang !! "load_text" = None ->
  let chunks := create_documents (split_text env) [decoded]
                  [{[ "source" := name file ]}] in
  let st' := fst (vectorize_text env lang coll (Some file :: rest) st) in
  snd (vectorize_text env lang coll (Some file :: rest) st)
  = Raised (KeyError "load_text")
  ∧ documents_of coll st' = documents_of coll st ++ chunks
  ∧ new_calls st st'
    = [staging_write (name file) (Ok tt); add_documents coll chunks].
Proof.
  intros Htxt Hstage Hdecode Hlabel. cbn zeta. cbn [vectorize_text].
  rewrite Htxt.
  unfold stage, vectorize_txt, vectorstore_add_documents, new_calls. script_simpl.
  rewrite Hstage. script_simpl. rewrite Hdecode. script_simpl.
  rewrite Hlabel. script_simpl.
  repeat split; try done.
  - unfold documents_of. script_simpl. by rewrite lookup_insert_eq.
  - rewrite <- !app_assoc. by rewrite drop_app_length.
Qed.

Lemma ingest_txt_label_missing_witness :
  let st' := fst (vectorize_text sample_env ∅ "vector_context_alice"
                    [Some {| name := "policy.txt"; getvalue := "Refunds" |}]
                    initial_state) in
  snd (vectorize_text sample_env ∅ "vector_context_alice"
         [Some {| name := "policy.txt"; getvalue := "Refunds" |}] initial_state)
  = Raised (KeyError "load_text")
  ∧ length (documents_of "vector_context_alice" st') = 1.
Proof.
  cbn zeta.
  assert (Hnone : (∅ : gmap string string) !! "load_text" = None) by by vm_compute.
  destruct (ingest_txt_label_missing sample_env ∅ "vector_context_alice"
              {| name := "policy.txt"; getvalue := "Refunds" |} []
              "Refunds" initial_state eq_refl eq_refl eq_refl Hnone)
    as (Hraised & Hdocs & _).
  split; [exact Hraised|]. rewrite Hdocs. by vm_compute.
Defined.

Lemma split_documents_pages split (docs : list Document) :
  split_documents split docs
  = concat (map (fun doc =>
                   map (fun chunk => {| page_content := chunk;
                                        metadata := metadata doc |})
                       (split (page_content doc)))
                docs).
Proof.
  unfold split_documents. induction docs as [|doc docs IH]; [done|].
  cbn [map create_documents concat]. by rewrite IH.
Qed.

Lemma elem_of_concat {A} (x : A) (ls : list (list A)) :
  x ∈ concat ls ↔ ∃ l, x ∈ l ∧ l ∈ ls.
Proof.
  induction ls as [|l ls IH]; cbn [concat].
  - split; [by intros ?%elem_of_nil|]. by intros (? & _ & ?%elem_of_nil).
  - rewrite elem_of_app, IH. split.
    + intros [Hx|(l' & Hx & Hl')]; [exists l|exists l']; split; try done;
        [by left|by right].
    + intros (l' & Hx & [->|Hl']%elem_of_cons); [by left|right; by exists l'].
Qed.

(** X8: a file whose name ends in [pdf] is loaded from its staged copy and
    every page the loader returns is split on its own: what is added to the
    store is, page after page, the chunks of that page, each carrying the
    metadata of the page it comes from; the message shows their number.  A
    PDF without pages still makes the (empty) write and shows 0. *)
Theorem ingest_pdf_stores_pages env lang coll file (docs : list Document)
    (label : string) st :
  endswith (name file) "pdf" = true ->
  answer_staging env (log st) (name file) = Ok tt ->
  answer_pdf env (log st ++ [staging_write (name file) (Ok tt)]) (name file)
  = Ok docs ->
  lang !! "load_pdf" = Some label ->
  let pages :=
    concat (map (fun doc =>
                   map (fun chunk => {| page_content := chunk;
                                        metadata := metadata doc |})
                       (split_text env (page_content doc)))
                docs) in
  let st' := fst (vectorize_text env lang coll [Some file] st) in
  snd (vectorize_text env lang coll [Some file] st) = Ok tt
  ∧ documents_of coll st' = documents_of coll st ++ pages
  ∧ new_calls st st'
    = [staging_write (name file) (Ok tt); pdf_load (name file) (Ok docs);
       add_documents coll pages; info (pretty (length pages) +:+ " " +:+ label)]
  ∧ (∀ page, page ∈ pages ->
       ∃ doc, doc ∈ docs ∧ metadata page = metadata doc
              ∧ page_content page ∈ split_text env (page_content doc)).
Proof.
  intros Hpdf Hstage Hload Hlabel. cbn zeta.
  pose proof (endswith_pdf_not_txt _ Hpdf) as Htxt.
  cbn [vectorize_text]. rewrite Htxt, Hpdf.
  unfold stage, vectorize_pdf, vectorstore_add_documents, new_calls.
  script_unfold. cbn -[insert lookup split_documents].
  rewrite Hstage. cbn -[insert lookup split_documents].
  rewrite Hload. cbn -[insert lookup split_documents].
  rewrite Hlabel. cbn -[insert lookup split_documents].
  rewrite split_documents_pages.
  repeat split; try done.
  - unfold documents_of. cbn -[insert lookup]. by rewrite lookup_insert_eq.
  - rewrite <- !app_assoc. by rewrite drop_app_length.
  - intros page (chunks & Hpage & (doc & -> & Hdoc)%list_elem_of_fmap)%elem_of_concat.
    apply list_elem_of_fmap in Hpage as (chunk & -> & Hchunk).
    by exists doc.
Qed.

Lemma ingest_pdf_stores_pages_witness :
  let st' := fst (vectorize_text sample_env_pdf sample_lang "vector_context_alice"
                    [Some {| name := "policy.pdf"; getvalue := "%PDF" |}]
                    initial_state) in
  snd (vectorize_text sample_env_pdf sample_lang "vector_context_alice"
         [Some {| name := "policy.pdf"; getvalue := "%PDF" |}] initial_state)
  = Ok tt
  ∧ map page_content (documents_of "vector_context_alice" st')
    = ["Refunds are processed within 14 days."; "Contact support for exchanges."].
Proof.
  cbn zeta.
  destruct (ingest_pdf_stores_pages sample_env_pdf sample_lang
              "vector_context_alice"
              {| name := "policy.pdf"; getvalue := "%PDF" |}
              sample_pages "load_pdf" initial_state eq_refl eq_refl eq_refl)
    as (Hok & Hdocs & _).
  - by vm_compute.
  - split; [exact Hok|]. rewrite Hdocs. by vm_compute.
Defined.

Lemma script_bind_assoc {A B C} (m : Script A) (f : A -> Script B)
    (g : B -> Script C) st :
  ((m ≫= f) ≫= g) st = (m ≫= (fun a => f a ≫= g)) st.
Proof.
  unfold mbind, Script_bind. destruct (m st) as [st1 [a|e]]; [|done].
  by destruct (f a st1) as [st2 [b|e]].
Qed.

Lemma script_bind_ext {A B} (m : Script A) (f g : A -> Script B) st :
  (∀ a st', f a st' = g a st') -> (m ≫= f) st = (m ≫= g) st.
Proof.
  intros Hfg. unfold mbind, Script_bind. by destruct (m st) as [st1 [a|e]].
Qed.

(** X9: the files of an upload are processed one after the other, in the
    order of the list: uploading [first ++ second] is uploading [first] and
    then, unless that raised, [second]; an empty slot of the list is passed
    over. *)
Theorem vectorize_text_app env lang coll
    (first second : list (option UploadedFile)) st :
  vectorize_text env lang coll (first ++ second) st
  = (vectorize_text env lang coll first ≫=
       fun _ => vectorize_text env lang coll second) st
  ∧ vectorize_text env lang coll (None :: first) st
    = vectorize_text env lang coll first st.
Proof.
  split; [|done]. revert st.
  induction first as [|[file|] first IH]; intros st.
  - cbn [app vectorize_text]. unfold mbind, Script_bind, mret, Script_ret. done.
  - cbn [app vectorize_text].
    rewrite script_bind_assoc. apply script_bind_ext. intros _ st1.
    rewrite script_bind_assoc. apply script_bind_ext. intros _ st2.
    rewrite script_bind_assoc. apply script_bind_ext. intros _ st3.
    apply IH.
  - cbn [app vectorize_text]. apply IH.
Qed.

(** ** Memoised handles *)

Lemma cached_resource_hit memo_key body st (handle : string) :
  cache_resource st !! memo_key = Some handle ->
  cached_resource memo_key body st = (st, Ok handle).
Proof. intros Hhit. unfold cached_resource. script_simpl. by rewrite Hhit. Qed.

Lemma cached_resource_cached memo_key body st st1 (handle : string) :
  cached_resource memo_key body st = (st1, Ok handle) ->
  cache_resource st1 !! memo_key = Some handle.
Proof.
  unfold cached_resource. script_simpl.
  destruct (cache_resource st !! memo_key) as [h|] eqn:Hhit; script_simpl.
  - by intros [= <- <-].
  - destruct (body st) as [st2 [h|e]]; script_simpl; [|done].
    intros [= <- <-]. cbn. apply lookup_insert_eq.
Qed.

(** X10: a handle that a memoised constructor has returned sticks: every
    later call under the same memo key returns it without running anything
    and without changing the state, whatever the body would now build.  The
    retriever and the memory, memoised without arguments, therefore stay
    bound to the vector store and to the chat history they were first built
    on, whichever store or history is passed later. *)
Theorem memoised_handles_stick st :
  (∀ memo_key body body' st1 handle,
     cached_resource memo_key body st = (st1, Ok handle) ->
     cached_resource memo_key body' st1 = (st1, Ok handle))
  ∧ (∀ vectorstore vectorstore' st1 retriever,
       load_retriever vectorstore st = (st1, Ok retriever) ->
       load_retriever vectorstore' st1 = (st1, Ok retriever))
  ∧ (∀ history_handle history_handle' st1 memory,
       load_memory history_handle st = (st1, Ok memory) ->
       load_memory history_handle' st1 = (st1, Ok memory)).
Proof.
  split; [|split].
  - intros memo_key body body' st1 handle Hfirst.
    by apply cached_resource_hit, (cached_resource_cached _ body st).
  - intros v v' st1 retriever. unfold load_retriever.
    unfold mbind at 1 2. unfold Script_bind.
    destruct (cached_resource "load_retriever()" (mret v) st)
      as [st2 [handle|e]] eqn:Hfirst; [|done].
    intros [= <- <-].
    by rewrite (cached_resource_hit _ _ _ handle)
      by by apply (cached_resource_cached _ (mret v) st).
  - intros hh hh' st1 memory. unfold load_memory.
    unfold mbind at 1 2. unfold Script_bind.
    destruct (cached_resource "load_memory()" (mret hh) st)
      as [st2 [handle|e]] eqn:Hfirst; [|done].
    intros [= <- <-].
    by rewrite (cached_resource_hit _ _ _ handle)
      by by apply (cached_resource_cached _ (mret hh) st).
Qed.

Example retriever_stays_bound :
  let st1 := fst (load_retriever "vector_context_alice" initial_state) in
  snd (load_retriever "vector_context_bob" st1)
  = Ok {| collection := "vector_context_alice"; search_k := 4 |}.
Proof. by vm_compute. Qed.

(** X11: the vector-store client is constructed exactly when no handle is
    cached under the user's memo key; the handle is cached when the
    construction succeeds and only then, so that a failed construction is
    tried again by the next run and a cleared cache makes the next run
    construct anew. *)
Theorem load_vectorstore_constructs env uname st :
  let memo_key := "load_vectorstore(" +:+ uname +:+ ")" in
  let st' := fst (load_vectorstore env uname st) in
  match cache_resource st !! memo_key with
  | Some handle =>
      load_vectorstore env uname st = (st, Ok handle)
  | None =>
      new_calls st st'
      = [construct memo_key (answer_construct env (log st) memo_key)]
      ∧ match answer_construct env (log st) memo_key with
        | Ok _ =>
            snd (load_vectorstore env uname st) = Ok ("vector_context_" +:+ uname)
            ∧ cache_resource st'
              = <[memo_key := "vector_context_" +:+ uname]> (cache_resource st)
        | Raised e =>
            snd (load_vectorstore env uname st) = Raised e
            ∧ cache_resource st' = cache_resource st
        end
  end.
Proof.
  cbn zeta. unfold load_vectorstore, cached_resource, constructing, new_calls.
  script_unfold. cbn -[insert lookup String.append].
  destruct (cache_resource st !! _) as [handle|]; cbn -[insert lookup String.append];
    [done|].
  destruct (answer_construct env (log st) _) as [[]|e];
    cbn -[insert lookup String.append]; by rewrite drop_app_length.
Qed.

(** ** The page of a visitor who is not logged in *)

(** X12: as long as the flag is not true, a run of the script stops at the
    login form, whatever the event that triggered it: it ends without
    raising, the form is the only widget drawn, the only thing that can be
    shown is the login error, and the stores, the caches, the user and the
    message list are as before. *)
Theorem page_stops_at_login env ev st :
  password_correct (session st) ≠ Some true ->
  let st' := fst (page env ev st) in
  snd (page env ev st) = Ok tt
  ∧ widgets st' = [credentials_form]
  ∧ histories st' = histories st
  ∧ collections st' = collections st
  ∧ cache_resource st' = cache_resource st
  ∧ cache_data st' = cache_data st
  ∧ password_correct (session st') = password_correct (session st)
  ∧ user (session st') = user (session st)
  ∧ messages (session st') = messages (session st)
  ∧ new_calls st st'
    = (if password_correct (session st) is Some _
       then [error "😕 User not known or password incorrect"] else []).
Proof.
  intros Hflag. cbn zeta.
  unfold page, init_session_id, check_password, login_form, new_calls.
  script_unfold. cbn -[main_page].
  destruct (session_id (session st)); cbn -[main_page];
    (destruct (password_correct (session st)) as [[|]|] eqn:Hpc; [done|..];
     cbn -[main_page]; rewrite ?Hpc; cbn -[main_page];
     repeat split; try done; by rewrite ?drop_app_length, ?drop_all).
Qed.

Lemma page_stops_at_login_witness :
  let st' := fst (page sample_env (SubmitQuestion "What is the refund policy?")
                    initial_state) in
  snd (page sample_env (SubmitQuestion "What is the refund policy?") initial_state)
  = Ok tt
  ∧ widgets st' = [credentials_form]
  ∧ new_calls initial_state st' = [].
Proof.
  cbn zeta.
  destruct (page_stops_at_login sample_env
              (SubmitQuestion "What is the refund policy?") initial_state)
    as (Hok & Hwidgets & _ & _ & _ & _ & _ & _ & _ & Hcalls).
  - discriminate.
  - split; [exact Hok|]. split; [exact Hwidgets|]. exact Hcalls.
Defined.

(** ** The whole of an answered turn *)

Ltac chat_split_exact H :=
  match type of H with
  | context [answer_history_read ?env ?l ?key] =>
      destruct (answer_history_read env l key) as [[]|?] eqn:?
  | context [answer_model ?env ?l ?i] =>
      destruct (answer_model env l i) as [? [?|?]] eqn:?
  | context [stream ?h ?t ?s] => rewrite (stream_drafts h t s) in H
  | context [answer_search ?env ?l ?c ?q ?k] =>
      destruct (answer_search env l c q k) as [?|?] eqn:?
  | context [?lang !! "sources_used"] =>
      destruct (lang !! "sources_used") eqn:?
  | context [sources_loop ?env ?docs ?c ?l] =>
      destruct (sources_loop env docs c l) as [[? ?]|?] eqn:?
  end.

(** X13: a turn that completes has done exactly this, in this order: the
    question is shown; the history is read; the retriever is queried; the
    model is called with the retrieved documents, the question and the
    memory window as it was before the turn; one draft is shown per token;
    the retriever is queried again; the answer (the model's response, the
    header and the footer built from the second retrieval) is shown and
    saved, footer included, into the memory window together with the
    question.  The message list grows by the question and that answer;
    vector store, caches and widgets are as before. *)
Theorem chat_answered_trace env lang retriever memory q st ms :
  messages (session st) = Some ms ->
  snd (chat env lang retriever memory q st) = Ok tt ->
  let st' := fst (chat env lang retriever memory q st) in
  let key := chat_memory memory in
  let search := similarity_search (collection retriever) q (search_k retriever) in
  ∃ docs1 tokens response docs2 sources_used answer listed,
    let input :=
      {| context := docs1;
         chat_history := Window.load (k_window memory) (entries_of key st);
         question := q |} in
    lang !! "sources_used" = Some sources_used
    ∧ sources_loop env docs2 (response +:+ sources_header sources_used) []
      = Ok (answer, listed)
    ∧ new_calls st st'
      = [markdown q; history_read key (Ok tt); search (Ok docs1);
         chat_model input tokens (Ok response)]
        ++ map markdown (drafts "" tokens)
        ++ [search (Ok docs2); markdown answer; history_write key q answer]
    ∧ session st'
      = with_messages (Some (ms ++ [HumanMessage q; AIMessage answer])) (session st)
    ∧ histories st'
      = <[key := Window.save (k_window memory) q answer (entries_of key st)]>
          (histories st)
    ∧ collections st' = collections st
    ∧ cache_resource st' = cache_resource st
    ∧ cache_data st' = cache_data st
    ∧ widgets st' = widgets st.
Proof.
  intros Hms Hok. cbn zeta.
  destruct (chat env lang retriever memory q st) as [st' r] eqn:Hrun.
  cbn [fst snd] in *. subst r.
  chat_run Hrun. rewrite Hms in Hrun. script_simpl.
  repeat (chat_split_exact Hrun; script_simpl); try discriminate Hrun.
  injection Hrun as <-.
  eexists _, _, _, _, _, _, _.
  split; [done|]. split; [eassumption|].
  unfold new_calls, entries_of.
  cbn [log with_log session histories collections cache_resource cache_data widgets
         with_session with_histories with_messages messages].
  rewrite <- !app_assoc, drop_app_length. cbn [app].
  rewrite <- ?app_assoc. cbn [app].
  repeat split; try done.
Qed.

Lemma chat_answered_trace_witness :
  let q := "What is the refund policy?" in
  let st' := fst (chat sample_env sample_lang sample_retriever sample_memory q
                    sample_logged_in) in
  ∃ answer,
    messages (session st')
    = Some ([AIMessage "assistant_welcome"] ++ [HumanMessage q; AIMessage answer])
    ∧ entries_of "alice_7c9e" st' = [(q, answer)].
Proof.
  cbn zeta.
  destruct (chat_answered_trace sample_env sample_lang sample_retriever
              sample_memory "What is the refund policy?" sample_logged_in
              [AIMessage "assistant_welcome"])
    as (docs1 & tokens & response & docs2 & sources_used & answer & listed
        & _ & _ & _ & Hsession & Hhistories & _).
  - by vm_compute.
  - by vm_compute.
  - exists answer. cbn zeta in *. split.
    + by rewrite Hsession.
    + unfold entries_of at 1. rewrite Hhistories.
      change (chat_memory sample_memory) with "alice_7c9e".
      rewrite lookup_insert_eq. cbn [default].
      replace (entries_of "alice_7c9e" sample_logged_in) with (@nil Exchange)
        by by vm_compute.
      reflexivity.
Defined.

(** ** The session id *)

Section SessionId.
Variable env : Env.
Variable sid : string.

Lemma quiet_keeps_id {A} (m : Script A) : quiet m -> keeps (has_session_id sid) m.
Proof. intros Hm st Hid. unfold has_session_id. by rewrite (proj1 (Hm st)). Qed.

Lemma keeps_id_append_message m : keeps (has_session_id sid) (append_message m).
Proof.
  intros st Hid. unfold append_message. script_simpl.
  by destruct (messages (session st)).
Qed.

Lemma keeps_id_set_welcome lang_dict :
  keeps (has_session_id sid) (ms ← welcome_messages lang_dict; set_messages ms).
Proof.
  intros st Hid. unfold welcome_messages, set_messages. script_simpl.
  by destruct (lang_dict !! "assistant_welcome").
Qed.

Lemma keeps_id_init_messages lang_dict :
  keeps (has_session_id sid) (init_messages lang_dict).
Proof.
  intros st Hid. unfold init_messages.
  pose proof (keeps_id_set_welcome lang_dict st Hid) as Hset.
  unfold mbind at 1. unfold Script_bind, gets.
  by destruct (messages (session st)).
Qed.

Lemma keeps_id_chat_block lang_dict retriever memory ev :
  keeps (has_session_id sid) (chat_block env lang_dict retriever memory ev).
Proof.
  unfold chat_block.
  do 2 (apply keeps_bind; [apply quiet_keeps_id; quiet_block|intros ?]).
  destruct ev; try (apply quiet_keeps_id; apply quiet_ret).
  destruct (String.eqb _ _); [apply quiet_keeps_id; apply quiet_ret|].
  unfold chat.
  keeps_steps ltac:(first [ apply keeps_id_append_message
                          | apply quiet_keeps_id; quiet_block ]).
Qed.

Lemma keeps_id_delete_context_block lang_dict uname vectorstore memory ev :
  keeps (has_session_id sid)
    (delete_context_block env lang_dict uname vectorstore memory ev).
Proof.
  unfold delete_context_block.
  destruct (delete_allowed env uname); [|apply quiet_keeps_id; apply quiet_ret].
  do 3 (apply keeps_bind; [apply quiet_keeps_id; quiet_block|intros ?]).
  destruct ev; try (apply quiet_keeps_id; apply quiet_ret).
  unfold delete_context_submitted.
  do 3 (apply keeps_bind; [apply quiet_keeps_id; quiet_block|intros ?]).
  apply keeps_id_set_welcome.
Qed.

Lemma keeps_id_main_page ev : keeps (has_session_id sid) (main_page env ev).
Proof.
  unfold main_page.
  keeps_steps ltac:(first [ apply keeps_id_init_messages
                          | apply keeps_id_delete_context_block
                          | apply keeps_id_chat_block
                          | apply quiet_keeps_id; first [quiet_block | apply quiet_gets] ]).
Qed.

Lemma keeps_id_page ev : keeps (has_session_id sid) (page env ev).
Proof.
  intros st Hid. rewrite page_unfold.
  unfold init_session_id. script_unfold. cbn -[main_page check_password].
  unfold has_session_id in Hid. rewrite Hid. cbn -[main_page check_password].
  unfold check_password, login_form. script_unfold. cbn -[main_page].
  destruct (password_correct (session st)) as [[|]|] eqn:Hpc; cbn -[main_page];
    rewrite ?Hpc; cbn -[main_page]; try exact Hid.
  by apply keeps_id_main_page.
Qed.

Lemma password_entered_session_id table s s' :
  password_entered table s = Ok s' -> session_id s' = session_id s.
Proof.
  unfold password_entered, credentials_ok, del_password. script_simpl.
  destruct (username s) as [u|]; script_simpl; [|done].
  destruct (table !! u) as [stored|]; script_simpl.
  - destruct (password s) as [p|]; script_simpl; [|done].
    destruct (compare_digest p stored) as [[|]|]; script_simpl;
      by intros [= <-].
  - by intros [= <-].
Qed.

Lemma keeps_id_callback ev : keeps (has_session_id sid) (callback env ev).
Proof.
  intros st Hid. destruct ev as [|u p| | | | |]; try exact Hid.
  - unfold callback. script_unfold. cbn -[password_entered].
    destruct (password_entered (passwords env) _) as [s'|e] eqn:Hcb; cbn;
      [|exact Hid].
    apply password_entered_session_id in Hcb. unfold has_session_id. cbn.
    by rewrite Hcb.
  - unfold callback, logout, del_key, del_password_correct, del_user, del_messages.
    script_simpl.
    destruct (password_correct (session st)); script_simpl; [|exact Hid].
    destruct (user (session st)); script_simpl; [|exact Hid].
    destruct (messages (session st)); script_simpl; exact Hid.
Qed.

Lemma keeps_id_handle ev : keeps (has_session_id sid) (handle env ev).
Proof.
  intros st Hid. rewrite handle_unfold.
  destruct (match widget_of ev with
            | Some w => bool_decide (w ∈ widgets st)
            | None => true
            end); [|exact Hid].
  by apply keeps_bind; [apply keeps_id_callback|intros ?; apply keeps_id_page|].
Qed.
End SessionId.

(** X14: the session id is drawn once: the first run of the script sets it,
    and from then on no event replaces or removes it, neither a logout nor a
    login under another name nor a turn that fails. *)
Theorem session_id_drawn_once env events st sid :
  session_id (session st) = Some sid ->
  session_id (session (run env events st)) = Some sid.
Proof.
  revert st. induction events as [|ev events IH]; intros st Hid; [done|].
  cbn [run fold_left]. apply IH. by apply keeps_id_handle.
Qed.

Lemma session_id_drawn_once_witness :
  session_id
    (session (run sample_env
                [SubmitQuestion "What is the refund policy?"; ClickLogout;
                 SubmitCredentials "alice" "wonderland"]
                sample_logged_in))
  = Some "7c9e".
Proof.
  apply (session_id_drawn_once sample_env
           [SubmitQuestion "What is the refund policy?"; ClickLogout;
            SubmitCredentials "alice" "wonderland"]
           sample_logged_in "7c9e").
  by vm_compute.
Defined.

Example session_id_first_run env :
  session_id (session (run env [Rerun] initial_state)) = Some (uuid4 env []).
Proof. reflexivity. Qed.

(** ** Runs that leave the session alone *)

Section SessionFrame.
Variable env : Env.
Variable s0 : SessionState.

Lemma quiet_keeps_session {A} (m : Script A) : quiet m -> keeps (session_is s0) m.
Proof. intros Hm st Hs. unfold session_is. by rewrite (proj1 (Hm st)). Qed.

Lemma keeps_session_init_messages lang_dict :
  is_Some (messages s0) -> keeps (session_is s0) (init_messages lang_dict).
Proof.
  intros [ms Hms] st Hs. unfold init_messages. script_simpl.
  unfold session_is in Hs. by rewrite Hs, Hms.
Qed.

Lemma quiet_delete_context_block_other lang_dict uname vectorstore memory ev :
  ev ≠ SubmitDeleteContext ->
  quiet (delete_context_block env lang_dict uname vectorstore memory ev).
Proof.
  intros Hev. unfold delete_context_block.
  destruct (delete_allowed env uname); [|apply quiet_ret].
  do 3 (apply quiet_bind; [quiet_block|intros ?]).
  destruct ev; try apply quiet_ret. done.
Qed.

Lemma quiet_chat_block_other lang_dict retriever memory ev :
  leaves_messages ev = true ->
  quiet (chat_block env lang_dict retriever memory ev).
Proof.
  intros Hev. unfold chat_block.
  do 2 (apply quiet_bind; [quiet_block|intros ?]).
  destruct ev; try apply quiet_ret. cbn in Hev. rewrite Hev. apply quiet_ret.
Qed.

Lemma keeps_session_main_page ev :
  is_Some (messages s0) -> leaves_messages ev = true ->
  keeps (session_is s0) (main_page env ev).
Proof.
  intros Hms Hev. unfold main_page.
  keeps_steps ltac:(first
    [ by apply keeps_session_init_messages
    | apply quiet_keeps_session;
      first [ quiet_block | apply quiet_gets
            | apply quiet_delete_context_block_other; by destruct ev
            | by apply quiet_chat_block_other ] ]).
Qed.
End SessionFrame.

(** X15: for a logged-in user whose conversation has started, a run of the
    script triggered by anything but a question or the deletion of the
    context (a plain rerun, an upload, the deletion of the memory, an empty
    chat input) leaves the session as it is, whether the run completes or
    raises: the message list, the user and the flag are untouched, and so is
    the session id once it is set. *)
Theorem page_leaves_session env ev st ms :
  password_correct (session st) = Some true ->
  messages (session st) = Some ms ->
  leaves_messages ev = true ->
  let st' := fst (page env ev st) in
  session st' = session (fst (init_session_id env st))
  ∧ messages (session st') = Some ms
  ∧ (is_Some (session_id (session st)) -> session st' = session st).
Proof.
  intros Hflag Hms Hev. cbn zeta.
  assert (Hrun : session (fst (page env ev st))
                 = session (fst (init_session_id env st))).
  { rewrite page_unfold.
    assert (Hinit : ∃ st1,
               init_session_id env (with_widgets [] st) = (st1, Ok tt)
               ∧ session st1 = session (fst (init_session_id env st))
               ∧ password_correct (session st1) = Some true
               ∧ messages (session st1) = Some ms).
    { unfold init_session_id. script_simpl.
      destruct (session_id (session st)); script_simpl; eauto 10. }
    destruct Hinit as (st1 & -> & Hs1 & Hflag1 & Hms1).
    destruct (check_password_spec st1) as [[_ ->]|[Hno _]]; [|done].
    rewrite <- Hs1.
    apply (keeps_session_main_page env (session st1) ev); [by rewrite Hms1|done|done]. }
  split; [exact Hrun|]. rewrite Hrun.
  unfold init_session_id. script_simpl.
  destruct (session_id (session st)) as [sid|] eqn:Hsid; script_simpl.
  - done.
  - split; [done|]. by intros [? ?].
Qed.

Lemma page_leaves_session_witness :
  messages (session (fst (page sample_env SubmitDeleteMemory sample_logged_in)))
  = Some [AIMessage "assistant_welcome"].
Proof.
  apply (page_leaves_session sample_env SubmitDeleteMemory sample_logged_in
           [AIMessage "assistant_welcome"]).
  - by vm_compute.
  - by vm_compute.
  - reflexivity.
Defined.

(** ** The bundles *)

Lemma dict_get_set_eq k v d : dict_get k (dict_set k v d) = Some v.
Proof.
  induction d as [|[k' v'] d IH]; cbn [dict_set dict_get].
  - by rewrite decide_True.
  - destruct (decide (k = k')) as [->|Hne]; cbn [dict_get].
    + by rewrite decide_True.
    + by rewrite decide_False.
Qed.

Lemma dict_get_set_ne k k' v d : k ≠ k' -> dict_get k (dict_set k' v d) = dict_get k d.
Proof.
  intros Hne. induction d as [|[k'' v''] d IH]; cbn [dict_set dict_get].
  - by rewrite decide_False.
  - destruct (decide (k' = k'')) as [->|Hne']; cbn [dict_get].
    + by rewrite !decide_False.
    + by rewrite IH.
Qed.

Lemma dict_set_keys k v d :
  map fst (dict_set k v d)
  = if decide (k ∈ map fst d) then map fst d else map fst d ++ [k].
Proof.
  induction d as [|[k' v'] d IH]; cbn [dict_set map fst].
  - rewrite decide_False; [done|apply not_elem_of_nil].
  - destruct (decide (k = k')) as [->|Hne]; cbn [map fst].
    + rewrite decide_True; [done|by left].
    + rewrite IH. destruct (decide (k ∈ map fst d)) as [Hin|Hout].
      * rewrite decide_True; [done|by right].
      * rewrite decide_False; [done|]. rewrite elem_of_cons. by intros [?|?].
Qed.

Lemma dict_of_rows_snoc df row :
  dict_of_rows (df ++ [row]) = dict_set (row_key row) (row_value row) (dict_of_rows df).
Proof. unfold dict_of_rows. by rewrite fold_left_app. Qed.

Lemma first_seen_snoc l x :
  first_seen (l ++ [x]) = if decide (x ∈ l) then first_seen l else first_seen l ++ [x].
Proof.
  induction l as [|y l IH]; cbn [app first_seen].
  - rewrite decide_False; [done|apply not_elem_of_nil].
  - rewrite IH. destruct (decide (x ∈ l)) as [Hin|Hout].
    + rewrite decide_True; [done|by right].
    + rewrite filter_app, (filter_cons _ x []), filter_nil.
      destruct (decide (x = y)) as [->|Hne].
      * rewrite (decide_False (P := y ≠ y)) by (by intros H).
        rewrite app_nil_r. by rewrite decide_True by by left.
      * rewrite (decide_True (P := x ≠ y)) by done.
        by rewrite decide_False by (rewrite elem_of_cons; by intros [?|?]).
Qed.

Lemma last_with_key_snoc k df row :
  last_with_key k (df ++ [row])
  = if decide (row_key row = k) then Some row else last_with_key k df.
Proof.
  unfold last_with_key. rewrite filter_app, (filter_cons _ row []), filter_nil.
  destruct (decide (row_key row = k)) as [Hk|Hk].
  - apply last_snoc.
  - by rewrite app_nil_r.
Qed.

Lemma dict_of_rows_keys df : map fst (dict_of_rows df) = first_seen (map row_key df).
Proof.
  induction df as [|row df IH] using rev_ind; [done|].
  rewrite dict_of_rows_snoc, dict_set_keys, map_app. cbn [map].
  rewrite first_seen_snoc, IH. destruct (decide (row_key row ∈ map row_key df)) as [Hin|Hout].
  - rewrite decide_True; [done|by apply first_seen_elem].
  - rewrite decide_False; [done|by rewrite first_seen_elem].
Qed.

Lemma dict_of_rows_get df k :
  dict_get k (dict_of_rows df) = row_value <$> last_with_key k df.
Proof.
  induction df as [|row df IH] using rev_ind; [done|].
  rewrite dict_of_rows_snoc, last_with_key_snoc.
  destruct (decide (row_key row = k)) as [<-|Hne].
  - by rewrite dict_get_set_eq.
  - by rewrite dict_get_set_ne.
Qed.

Lemma last_with_key_None k df :
  last_with_key k df = None ↔ ∀ row, row ∈ df -> row_key row ≠ k.
Proof.
  unfold last_with_key. rewrite last_None. split.
  - intros Hnil row Hin Hk.
    assert (Hrow : row ∈ filter (fun row => row_key row = k) df)
      by by apply list_elem_of_filter.
    rewrite Hnil in Hrow. by apply elem_of_nil in Hrow.
  - intros Hnone.
    destruct (filter (fun row => row_key row = k) df) as [|row rest] eqn:Hrows;
      [done|].
    assert (Hrow : row ∈ filter (fun row => row_key row = k) df)
      by (rewrite Hrows; by left).
    apply list_elem_of_filter in Hrow as [Hk Hin]. by destruct (Hnone row Hin).
Qed.

Lemma rows_of_nil name csv :
  rows_of name csv = [] ↔ ∀ row, row ∈ csv -> row_scope row ≠ name.
Proof.
  unfold rows_of. split.
  - intros Hnil row Hin Hscope.
    assert (Hrow : row ∈ filter (fun row => row_scope row = name) csv)
      by by apply list_elem_of_filter.
    rewrite Hnil in Hrow. by apply elem_of_nil in Hrow.
  - intros Hnone.
    destruct (filter (fun row => row_scope row = name) csv) as [|row rest] eqn:Hrows;
      [done|].
    assert (Hrow : row ∈ filter (fun row => row_scope row = name) csv)
      by (rewrite Hrows; by left).
    apply list_elem_of_filter in Hrow as [Hscope Hin]. by destruct (Hnone row Hin).
Qed.

Lemma dict_of_rows_origin df k v :
  dict_get k (dict_of_rows df) = Some v ->
  ∃ row, row ∈ df ∧ row_key row = k ∧ row_value row = v.
Proof.
  rewrite dict_of_rows_get. unfold last_with_key.
  destruct (last (filter _ df)) as [row|] eqn:Hlast; [|done].
  intros [= <-]. exists row.
  apply last_Some in Hlast as [rows Hrows].
  assert (Hrow : row ∈ filter (fun row => row_key row = k) df).
  { rewrite Hrows. apply elem_of_app. right. by left. }
  apply list_elem_of_filter in Hrow as [Hk Hin]. done.
Qed.

(** X16: the localisation dictionary has one entry per key that occurs in a
    row of the locale, in the order in which the keys first occur in the
    file; the value of a key is that of the last row of the locale with this
    key; a key has no entry (and subscripting it raises) exactly when the
    file has no row of the locale with this key. *)
Theorem load_localization_entries query csv locale :
  query locale csv = rows_of locale csv ->
  let lang_dict := Bundle.load_localization query csv locale in
  map fst lang_dict = first_seen (map row_key (rows_of locale csv))
  ∧ (∀ k, dict_get k lang_dict = row_value <$> last_with_key k (rows_of locale csv))
  ∧ (∀ k, dict_get k lang_dict = None
          ↔ ∀ row, row ∈ csv -> row_scope row = locale -> row_key row ≠ k).
Proof.
  intros Hquery. cbn zeta. unfold Bundle.load_localization. rewrite Hquery.
  split; [apply dict_of_rows_keys|]. split; [apply dict_of_rows_get|].
  intros k. rewrite dict_of_rows_get, fmap_None, last_with_key_None.
  unfold rows_of. split.
  - intros Hnone row Hin Hscope. apply Hnone. by apply list_elem_of_filter.
  - intros Hnone row [Hscope Hin]%list_elem_of_filter. by apply Hnone.
Qed.

Lemma load_localization_entries_witness :
  Bundle.load_localization rows_of sample_localization_csv "en"
  = [("assistant_welcome", "Hello"); ("sources_used", "Sources used")]
  ∧ map fst (Bundle.load_localization rows_of sample_localization_csv "en")
    = first_seen (map row_key (rows_of "en" sample_localization_csv)).
Proof.
  split; [reflexivity|].
  exact (proj1 (load_localization_entries rows_of sample_localization_csv "en"
                  eq_refl)).
Defined.

(** X17: the rails of a user are built from the rows of that user alone when
    the file has at least one, and from the rows of [datastax] alone when it
    has none: the two are never mixed, and every rail shown comes from a row
    of the file. *)
Theorem load_rails_fallback query csv uname :
  query uname csv = rows_of uname csv ->
  query "datastax" csv = rows_of "datastax" csv ->
  let rails_dict := Bundle.load_rails query csv uname in
  ((∃ row, row ∈ csv ∧ row_scope row = uname) ->
   rails_dict = dict_of_rows (rows_of uname csv))
  ∧ ((∀ row, row ∈ csv -> row_scope row ≠ uname) ->
     rails_dict = dict_of_rows (rows_of "datastax" csv))
  ∧ ∀ k v, dict_get k rails_dict = Some v ->
      ∃ row, row ∈ csv ∧ row_key row = k ∧ row_value row = v
             ∧ (row_scope row = uname
                ∨ (row_scope row = "datastax"
                   ∧ ∀ other, other ∈ csv -> row_scope other ≠ uname)).
Proof.
  intros Hown Hdefault. cbn zeta. unfold Bundle.load_rails. cbn zeta.
  rewrite Hown, Hdefault.
  destruct (decide (rows_of uname csv = [])) as [Hnil|Hsome].
  - pose proof (proj1 (rows_of_nil uname csv) Hnil) as Hnone.
    split; [|split].
    + intros (row & Hin & Hscope). by destruct (Hnone row Hin).
    + done.
    + intros k v (row & [Hscope Hin]%list_elem_of_filter & Hk & Hv)%dict_of_rows_origin.
      exists row. repeat split; try done. by right.
  - split; [done|]. split.
    + intros Hnone. by apply rows_of_nil in Hnone.
    + intros k v (row & [Hscope Hin]%list_elem_of_filter & Hk & Hv)%dict_of_rows_origin.
      exists row. repeat split; try done. by left.
Qed.

Lemma load_rails_fallback_witness :
  Bundle.load_rails rows_of sample_rails_csv "bob"
  = dict_of_rows (rows_of "datastax" sample_rails_csv)
  ∧ Bundle.load_rails rows_of sample_rails_csv "bob"
    = [("1", "What is Astra DB?"); ("2", "What is a vector?")].
Proof.
  split; [|reflexivity].
  apply (load_rails_fallback rows_of sample_rails_csv "bob" eq_refl eq_refl).
  intros row Hin. unfold sample_rails_csv in Hin.
  repeat (apply elem_of_cons in Hin as [->|Hin]; [discriminate|]).
  by apply elem_of_nil in Hin.
Defined.

(** ** Who can empty the vector store *)

Section Calm.
Context {A B : Type}.

Lemma calm_silent (m : Script A) : (∀ st, log (fst (m st)) = log st) -> calm m.
Proof. intros Hm st. exists []. by rewrite Hm, app_nil_r. Qed.

Lemma calm_ret (a : A) : calm (mret a : Script A).
Proof. by apply calm_silent. Qed.

Lemma calm_lift (r : Result A) : calm (lift r).
Proof. by apply calm_silent. Qed.

Lemma calm_gets (f : AppState -> A) : calm (gets f).
Proof. by apply calm_silent. Qed.

Lemma calm_at_bind (m : Script A) (f : A -> Script B) st :
  calm_at m st ->
  (∀ a, snd (m st) = Ok a -> calm_at (f a) (fst (m st))) ->
  calm_at (m ≫= f) st.
Proof.
  intros (calls & Hlog & Hcalls) Hf. unfold mbind, Script_bind, calm_at.
  destruct (m st) as [st1 [a|e]]; cbn [fst snd] in *; [|by exists calls].
  destruct (Hf a eq_refl) as (calls' & Hlog' & Hcalls').
  exists (calls ++ calls'). rewrite Hlog', Hlog, app_assoc.
  split; [done|]. by apply Forall_app.
Qed.

Lemma calm_bind (m : Script A) (f : A -> Script B) :
  calm m -> (∀ a, calm (f a)) -> calm (m ≫= f).
Proof. intros Hm Hf st. apply calm_at_bind; [apply Hm|]. intros a _. apply Hf. Qed.

Lemma calm_ask (answer : list Call -> A) (record : A -> Call) :
  (∀ r, is_clear (record r) = false) -> calm (ask answer record).
Proof.
  intros Hrecord st. exists [record (answer (log st))]. split; [done|].
  by apply Forall_singleton.
Qed.
End Calm.

Lemma calm_call {A} (answer : list Call -> Result A) (record : Result A -> Call) :
  (∀ r, is_clear (record r) = false) -> calm (call answer record).
Proof. intros Hrecord. apply calm_bind; [by apply calm_ask|intros r; apply calm_lift]. Qed.

Lemma calm_modify (f : AppState -> AppState) :
  (∀ st, log (f st) = log st) -> calm (modify f).
Proof. intros Hf. by apply calm_silent. Qed.

Lemma calm_emit c : is_clear c = false -> calm (emit c).
Proof. intros Hc st. exists [c]. split; [done|]. by apply Forall_singleton. Qed.

Lemma calm_render w : calm (render w).
Proof. by apply calm_silent. Qed.

Lemma calm_subscript d key : calm (subscript d key).
Proof. apply calm_lift. Qed.

Ltac calm_steps :=
  repeat first
    [ apply calm_bind; [|intros ?]
    | apply calm_ret | apply calm_lift | apply calm_gets
    | apply calm_emit; reflexivity
    | apply calm_subscript
    | apply calm_call; intros ?; reflexivity
    | apply calm_ask; intros ?; reflexivity
    | apply calm_render
    | apply calm_modify; intros ?; reflexivity
    | match goal with
      | |- calm (match ?x with _ => _ end) => destruct x
      end ];
  try assumption.

Section CalmScript.
Variable env : Env.

Lemma calm_cached_resource memo_key body :
  calm body -> calm (cached_resource memo_key body).
Proof. intros Hbody. unfold cached_resource. calm_steps. Qed.

Lemma calm_cached_data {A} memo_key (value : A) : calm (cached_data memo_key value).
Proof. unfold cached_data. calm_steps. Qed.

Lemma calm_constructing memo_key : calm (constructing env memo_key).
Proof. unfold constructing. calm_steps. Qed.

Lemma calm_loaders uname vectorstore history_handle :
  calm (load_embedding env) ∧ calm (load_vectorstore env uname)
  ∧ calm (load_retriever vectorstore) ∧ calm (load_model env)
  ∧ calm (load_chat_history env uname) ∧ calm (load_memory history_handle).
Proof.
  repeat split.
  - apply calm_cached_resource. calm_steps.
  - apply calm_cached_resource. calm_steps.
  - unfold load_retriever. apply calm_bind; [|intros ?; apply calm_ret].
    apply calm_cached_resource, calm_ret.
  - apply calm_cached_resource. calm_steps.
  - apply calm_cached_resource. calm_steps.
  - unfold load_memory. apply calm_bind; [|intros ?; apply calm_ret].
    apply calm_cached_resource, calm_ret.
Qed.

Lemma calm_stream handler tokens : calm (stream handler tokens).
Proof.
  revert handler. induction tokens as [|token tokens IH]; intros handler;
    cbn [stream]; [apply calm_ret|].
  apply calm_bind; [|intros ?; apply IH].
  unfold on_llm_new_token. calm_steps.
Qed.

Lemma calm_draw_all lines : calm (draw_all lines).
Proof.
  induction lines as [|line lines IH]; cbn [draw_all]; [apply calm_ret|].
  apply calm_bind; [by apply calm_emit|intros ?; exact IH].
Qed.

Lemma calm_vectorstore_add_documents coll docs :
  calm (vectorstore_add_documents coll docs).
Proof. unfold vectorstore_add_documents. calm_steps. Qed.

Lemma calm_vectorize_text lang_dict vectorstore uploaded_files :
  calm (vectorize_text env lang_dict vectorstore uploaded_files).
Proof.
  induction uploaded_files as [|[file|] rest IH]; cbn [vectorize_text];
    [apply calm_ret| |exact IH].
  apply calm_bind; [unfold stage; calm_steps|intros ?].
  apply calm_bind; [|intros ?].
  { destruct (endswith _ _); [|apply calm_ret].
    unfold vectorize_txt. apply calm_bind; [apply calm_lift|intros ?].
    apply calm_bind; [apply calm_vectorstore_add_documents|intros ?].
    calm_steps. }
  apply calm_bind; [|intros ?; exact IH].
  destruct (endswith _ _); [|apply calm_ret].
  unfold vectorize_pdf. apply calm_bind; [by apply calm_call|intros ?].
  apply calm_bind; [apply calm_vectorstore_add_documents|intros ?].
  calm_steps.
Qed.

Lemma calm_upload_block lang_dict vectorstore ev :
  calm (upload_block env lang_dict vectorstore ev).
Proof.
  unfold upload_block.
  do 3 (apply calm_bind; [calm_steps|intros ?]).
  destruct ev; try apply calm_ret. apply calm_vectorize_text.
Qed.

Lemma calm_delete_memory_block lang_dict memory ev :
  calm (delete_memory_block lang_dict memory ev).
Proof.
  unfold delete_memory_block, delete_memory_submitted, memory_clear.
  do 3 (apply calm_bind; [calm_steps|intros ?]).
  destruct ev; try apply calm_ret. calm_steps.
Qed.

Lemma calm_delete_context_block lang_dict uname vectorstore memory ev :
  delete_allowed env uname = false ∨ ev ≠ SubmitDeleteContext ->
  calm (delete_context_block env lang_dict uname vectorstore memory ev).
Proof.
  intros Hguard. unfold delete_context_block.
  destruct (delete_allowed env uname); [|apply calm_ret].
  destruct Hguard as [?|Hev]; [done|].
  do 3 (apply calm_bind; [calm_steps|intros ?]).
  destruct ev; try apply calm_ret. done.
Qed.

Lemma calm_draw_rails lang_dict rails_dict : calm (draw_rails lang_dict rails_dict).
Proof.
  unfold draw_rails. do 2 (apply calm_bind; [calm_steps|intros ?]).
  apply calm_draw_all.
Qed.

Lemma calm_draw_messages : calm draw_messages.
Proof.
  unfold draw_messages. do 2 (apply calm_bind; [calm_steps|intros ?]).
  apply calm_draw_all.
Qed.

Lemma calm_chat lang_dict retriever memory q :
  calm (chat env lang_dict retriever memory q).
Proof.
  unfold chat, append_message, load_memory_variables, chain_invoke,
    get_relevant_documents, save_context.
  repeat first
    [ apply calm_stream
    | apply calm_bind; [|intros ?]
    | apply calm_ret | apply calm_lift | apply calm_gets
    | apply calm_emit; reflexivity
    | apply calm_subscript
    | apply calm_call; intros ?; reflexivity
    | apply calm_ask; intros ?; reflexivity
    | apply calm_modify; intros ?; reflexivity ].
Qed.

Lemma calm_chat_block lang_dict retriever memory ev :
  calm (chat_block env lang_dict retriever memory ev).
Proof.
  unfold chat_block.
  do 2 (apply calm_bind; [calm_steps|intros ?]).
  destruct ev; try apply calm_ret.
  destruct (String.eqb _ _); [apply calm_ret|apply calm_chat].
Qed.
End CalmScript.

(** The blocks of the page that are known to be calm. *)
Ltac calm_block :=
  lazymatch goal with
  | |- calm (emit _) => apply calm_emit; reflexivity
  | |- calm (mret _) => apply calm_ret
  | |- calm (gets _) => apply calm_gets
  | |- calm (lift _) => apply calm_lift
  | |- calm (subscript _ _) => apply calm_subscript
  | |- calm (load_localization _ _) => apply calm_cached_data
  | |- calm (load_rails _ _) => apply calm_cached_data
  | |- calm load_prompt => apply calm_cached_data
  | |- calm (load_embedding _) => apply (calm_loaders _ "" "" "")
  | |- calm (load_vectorstore _ ?u) => apply (calm_loaders _ u "" "")
  | |- calm (load_retriever ?v) =>
      match goal with e : Env |- _ => apply (calm_loaders e "" v "") end
  | |- calm (load_model _) => apply (calm_loaders _ "" "" "")
  | |- calm (load_chat_history _ ?u) => apply (calm_loaders _ u "" "")
  | |- calm (load_memory ?h) =>
      match goal with e : Env |- _ => apply (calm_loaders e "" "" h) end
  | |- calm (spinner_texts _) => unfold spinner_texts; calm_steps
  | |- calm (init_messages _) =>
      unfold init_messages, welcome_messages, set_messages; calm_steps
  | |- calm (logout_block _) => unfold logout_block; calm_steps
  | |- calm (upload_block _ _ _ _) => apply calm_upload_block
  | |- calm (delete_memory_block _ _ _) => apply calm_delete_memory_block
  | |- calm (draw_rails _ _) => apply calm_draw_rails
  | |- calm draw_messages => apply calm_draw_messages
  | |- calm (chat_block _ _ _ _ _) => apply calm_chat_block
  end.

(** Walks along a chain of binds, closing every step with [tac]. *)
Ltac calm_walk tac :=
  lazymatch goal with
  | |- calm (_ ≫= _) => apply calm_bind; [tac | intros ?; calm_walk tac]
  | |- _ => tac
  end.

Lemma calm_at_main_page env ev st :
  ev ≠ SubmitDeleteContext
  ∨ (∀ u, user (session st) = Some u -> delete_allowed env u = false) ->
  calm_at (main_page env ev) st.
Proof.
  intros Hguard. unfold main_page.
  apply calm_at_bind; [apply calm_gets|]. intros s Hs.
  cbn in Hs. injection Hs as <-. change (fst (gets session st)) with st.
  apply calm_at_bind; [apply calm_lift|]. intros uname Hu.
  assert (Huser : user (session st) = Some uname).
  { unfold lift, getitem in Hu. cbn in Hu.
    destruct (user (session st)) as [u|]; cbn in Hu;
      [by injection Hu as <-|discriminate Hu]. }
  match goal with |- calm_at ?m _ => assert (Hrest : calm m); [|apply Hrest] end.
  assert (Hdelete : delete_allowed env uname = false ∨ ev ≠ SubmitDeleteContext).
  { destruct Hguard as [Hev|Hno]; [by right|left; by apply Hno]. }
  clear Hu Huser Hguard.
  calm_walk ltac:(first [ by apply calm_delete_context_block | calm_block ]).
Qed.

Lemma calm_at_page env ev st :
  ev ≠ SubmitDeleteContext
  ∨ password_correct (session st) ≠ Some true
  ∨ (∀ u, user (session st) = Some u -> delete_allowed env u = false) ->
  calm_at (page env ev) st.
Proof.
  intros Hguard. unfold page.
  apply calm_at_bind; [by apply calm_modify|]. intros [] _.
  change (fst (modify (with_widgets []) st)) with (with_widgets [] st).
  destruct (init_session_id_spec env (with_widgets [] st))
    as (st1 & Hinit & _ & Hflag1 & Huser1 & _).
  apply calm_at_bind; [unfold init_session_id; calm_steps|]. intros [] _.
  rewrite Hinit. cbn [fst].
  apply calm_at_bind; [unfold check_password, login_form; calm_steps|].
  destruct (check_password_spec st1) as [[Hpc Hcheck]|(_ & st2 & Hcheck & _)];
    rewrite Hcheck; intros logged_in [= <-]; cbn [fst]; [|apply calm_ret].
  apply calm_at_main_page. rewrite Huser1. cbn [session with_widgets].
  destruct Hguard as [Hev|[Hflag|Hno]]; [by left| |by right].
  destruct Hflag. by rewrite Hflag1 in Hpc.
Qed.

(** X18: a run of the script asks the vector store to empty a collection
    only when the pressed button is the one that deletes the context, the
    visitor is logged in, and the delete option of the logged-in user is
    ['True'] in the secrets; in every other case, whatever the event and
    however the run ends, no such call is made. *)
Theorem context_cleared_only_when_allowed env ev st coll :
  collection_clear coll ∈ new_calls st (fst (page env ev st)) ->
  ev = SubmitDeleteContext
  ∧ password_correct (session st) = Some true
  ∧ ∃ u, user (session st) = Some u ∧ delete_option env !! u = Some "True".
Proof.
  intros Hclear.
  assert (Hcalm : ¬ calm_at (page env ev) st).
  { intros (calls & Hlog & Hcalls).
    rewrite (new_calls_app st calls) in Hclear by done.
    by apply (proj1 (Forall_forall _ _) Hcalls) in Hclear. }
  assert (Hev : ev = SubmitDeleteContext).
  { destruct ev; try done; destruct Hcalm; apply calm_at_page; by left. }
  split; [done|].
  destruct (decide (password_correct (session st) = Some true)) as [Hflag|Hflag];
    [|destruct Hcalm; apply calm_at_page; right; by left].
  split; [done|].
  destruct (user (session st)) as [u|] eqn:Hu;
    [|destruct Hcalm; apply calm_at_page; right; right; by rewrite Hu].
  exists u. split; [done|].
  destruct (delete_allowed env u) eqn:Hallowed.
  - unfold delete_allowed in Hallowed.
    destruct (delete_option env !! u) as [flag|]; [|done].
    by apply String.eqb_eq in Hallowed as ->.
  - destruct Hcalm. apply calm_at_page. right. right. rewrite Hu. by intros ? [= <-].
Qed.

Lemma context_cleared_only_when_allowed_witness :
  password_correct (session sample_logged_in) = Some true
  ∧ delete_option sample_env !! "alice" = Some "True".
Proof.
  destruct (context_cleared_only_when_allowed sample_env SubmitDeleteContext
              sample_logged_in "vector_context_alice")
    as (_ & Hflag & u & Hu & Hoption).
  - vm_compute. right. left.
  - split; [exact Hflag|].
    assert (Halice : user (session sample_logged_in) = Some "alice") by by vm_compute.
    rewrite Halice in Hu. by injection Hu as <-.
Defined.

(** ** Nothing happens before a login *)

Section Gate.
Variable env : Env.
Variable st0 : AppState.

Lemma gated_same st st' :
  password_correct (session st') ≠ Some true ->
  histories st' = histories st -> collections st' = collections st ->
  log st' = log st ->
  gated st0 st -> gated st0 st'.
Proof.
  intros Hflag Hh Hc Hl (_ & Hh0 & Hc0 & Hlog). unfold gated.
  rewrite Hh, Hc, Hl. done.
Qed.

Lemma page_gated ev st :
  password_correct (session st) ≠ Some true ->
  gated st0 st -> gated st0 (fst (page env ev st)).
Proof.
  intros Hflag (_ & Hh0 & Hc0 & calls & Hlog & Hcalls).
  unfold page, init_session_id, check_password, login_form, gated.
  script_unfold. cbn -[main_page].
  destruct (session_id (session st)); cbn -[main_page];
    (destruct (password_correct (session st)) as [[|]|] eqn:Hpc; [done|..];
     cbn -[main_page]; rewrite ?Hpc; cbn -[main_page];
     (split; [by rewrite Hpc|]); (split; [done|]); (split; [done|])).
  all: first
    [ by exists calls
    | exists (calls ++ [login_error]); rewrite Hlog, app_assoc; split; [done|];
      apply Forall_app; split; [done|]; by apply Forall_singleton ].
Qed.

Lemma password_entered_accepts table s s' :
  password_entered table s = Ok s' ->
  password_correct s' = Some true ->
  ∃ u p, username s = Some u ∧ password s = Some p ∧ table !! u = Some p.
Proof.
  unfold password_entered, credentials_ok, del_password. script_simpl.
  destruct (username s) as [u|] eqn:Hu; script_simpl; [|done].
  destruct (table !! u) as [stored|] eqn:Htab; script_simpl.
  - destruct (password s) as [p|] eqn:Hp; script_simpl; [|done].
    unfold compare_digest.
    destruct (is_ascii p && is_ascii stored); script_simpl; [|done].
    destruct (String.eqb_spec p stored) as [->|Hne]; script_simpl;
      intros [= <-]; cbn; [|done].
    intros _. by exists u, stored.
  - by intros [= <-].
Qed.

Lemma callback_gated ev st :
  ¬ accepted (passwords env) ev ->
  gated st0 st -> gated st0 (fst (callback env ev st)).
Proof.
  intros Hev Hgated. pose proof Hgated as (Hflag & _).
  destruct ev as [|u p| | | | |]; try exact Hgated.
  - unfold callback. script_unfold. cbn -[password_entered].
    destruct (password_entered (passwords env) _) as [s'|e] eqn:Hcb; cbn.
    + apply (gated_same st); try done. cbn. intros Htrue.
      destruct (password_entered_accepts _ _ _ Hcb Htrue)
        as (u' & p' & [= <-] & [= <-] & Htab).
      apply Hev. by exists u, p.
    + by apply (gated_same st).
  - unfold callback, logout, del_key, del_password_correct, del_user, del_messages.
    script_simpl.
    destruct (password_correct (session st)) as [flag|] eqn:Hpc; script_simpl;
      [|exact Hgated].
    destruct (user (session st)); script_simpl;
      [|by apply (gated_same st)].
    destruct (messages (session st)); script_simpl; by apply (gated_same st).
Qed.

Lemma handle_gated ev st :
  ¬ accepted (passwords env) ev ->
  gated st0 st -> gated st0 (fst (handle env ev st)).
Proof.
  intros Hev Hgated. rewrite handle_unfold.
  destruct (match widget_of ev with
            | Some w => bool_decide (w ∈ widgets st)
            | None => true
            end); [|exact Hgated].
  pose proof (callback_gated ev st Hev Hgated) as Hcb.
  unfold mbind, Script_bind.
  destruct (callback env ev st) as [st1 [[]|e]]; cbn [fst snd] in *; [|exact Hcb].
  apply page_gated; [apply Hcb|exact Hcb].
Qed.

Lemma run_gated events st :
  Forall (fun ev => ¬ accepted (passwords env) ev) events ->
  gated st0 st -> gated st0 (run env events st).
Proof.
  intros Hevents. revert st.
  induction Hevents as [|ev events Hev _ IH]; intros st Hgated; [done|].
  cbn [run fold_left]. apply IH. by apply handle_gated.
Qed.
End Gate.

(** X19: before credentials that are in the password table have been
    submitted, nothing of the application is reachable: whatever the visitor
    does (questions, uploads, deletions, logout, wrong passwords, in any
    order), nobody is logged in, the retriever, the model, the memory and the
    vector store are never called, their contents are untouched, and the
    only thing ever shown is the login error. *)
Theorem no_content_without_login env events st :
  password_correct (session st) ≠ Some true ->
  Forall (fun ev => ¬ accepted (passwords env) ev) events ->
  let st' := run env events st in
  password_correct (session st') ≠ Some true
  ∧ histories st' = histories st
  ∧ collections st' = collections st
  ∧ Forall (fun c => c = login_error) (new_calls st st').
Proof.
  intros Hflag Hevents. cbn zeta.
  destruct (run_gated env st events st Hevents)
    as (Hflag' & Hh & Hc & calls & Hlog & Hcalls).
  { repeat split; try done. exists []. by rewrite app_nil_r. }
  repeat split; try done. by rewrite (new_calls_app st calls).
Qed.

Lemma no_content_without_login_witness :
  let st' :=
    run sample_env
      [Rerun; SubmitCredentials "alice" "guess";
       SubmitQuestion "What is the refund policy?";
       SubmitCredentials "mallory" "wonderland"]
      initial_state in
  password_correct (session st') ≠ Some true
  ∧ Forall (fun c => c = login_error) (new_calls initial_state st').
Proof.
  cbn zeta.
  pose proof (no_content_without_login sample_env
                [Rerun; SubmitCredentials "alice" "guess";
                 SubmitQuestion "What is the refund policy?";
                 SubmitCredentials "mallory" "wonderland"]
                initial_state) as Hgate.
  cbn zeta in Hgate.
  destruct Hgate as (Hflag & _ & _ & Hcalls).
  - discriminate.
  - repeat (apply Forall_cons; split);
      [intros (u & p & [=] & _)
      |intros (u & p & [= <- <-] & Htab); by vm_compute in Htab
      |intros (u & p & [=] & _)
      |intros (u & p & [= <- <-] & Htab); by vm_compute in Htab
      |apply Forall_nil_2].
  - split; [exact Hflag|exact Hcalls].
Defined.

Example two_failed_attempts :
  new_calls initial_state
    (run sample_env
       [Rerun; SubmitCredentials "alice" "guess";
        SubmitQuestion "What is the refund policy?";
        SubmitCredentials "mallory" "wonderland"]
       initial_state)
  = [login_error; login_error].
Proof. by vm_compute. Qed.

(** ** A user without a language *)

Lemma main_page_without_language env ev st u :
  user (session st) = Some u ->
  languages env !! u = None ->
  main_page env ev st = (st, Raised (KeyError u)).
Proof.
  intros Hu Hlanguage. unfold main_page.
  unfold mbind at 1. unfold Script_bind at 1. unfold gets at 1. cbn beta iota.
  unfold mbind at 1. unfold Script_bind at 1. unfold lift at 1.
  rewrite Hu. cbn [getitem]. cbn beta iota.
  unfold mbind at 1. unfold Script_bind at 1. unfold lift at 1.
  by rewrite Hlanguage.
Qed.

(** X20: a user who can log in but has no entry in the languages of the
    secrets gets a dead page: every run raises [KeyError] for the user name
    before anything is drawn, built or called, so that no widget is on the
    page, not even the logout button, and every later event but a plain
    rerun finds no widget to come from. *)
Theorem page_without_language env ev st u :
  password_correct (session st) = Some true ->
  user (session st) = Some u ->
  languages env !! u = None ->
  let st' := fst (page env ev st) in
  snd (page env ev st) = Raised (KeyError u)
  ∧ widgets st' = []
  ∧ new_calls st st' = []
  ∧ histories st' = histories st
  ∧ collections st' = collections st
  ∧ cache_resource st' = cache_resource st
  ∧ cache_data st' = cache_data st
  ∧ messages (session st') = messages (session st)
  ∧ ∀ ev', is_Some (widget_of ev') -> handle env ev' st' = (st', Ok tt).
Proof.
  intros Hflag Hu Hlanguage. cbn zeta. rewrite page_unfold.
  assert (Hinit : ∃ st1,
             init_session_id env (with_widgets [] st) = (st1, Ok tt)
             ∧ widgets st1 = [] ∧ log st1 = log st
             ∧ histories st1 = histories st ∧ collections st1 = collections st
             ∧ cache_resource st1 = cache_resource st
             ∧ cache_data st1 = cache_data st
             ∧ password_correct (session st1) = Some true
             ∧ user (session st1) = Some u
             ∧ messages (session st1) = messages (session st)).
  { unfold init_session_id. script_simpl.
    destruct (session_id (session st)); script_simpl; eauto 15. }
  destruct Hinit as (st1 & -> & Hwid & Hlog & Hh & Hc & Hcr & Hcd & Hflag1 & Hu1 & Hms).
  destruct (check_password_spec st1) as [[_ ->]|[Hno _]]; [|done].
  rewrite (main_page_without_language env ev st1 u) by done. cbn [fst snd].
  repeat split; try done.
  - unfold new_calls. by rewrite Hlog, drop_all.
  - intros ev' [w Hw]. rewrite handle_unfold, Hw, Hwid.
    by rewrite bool_decide_eq_false_2 by apply not_elem_of_nil.
Qed.

Lemma page_without_language_witness :
  let st :=
    with_session
      (with_user (Some "bob") (with_password_correct (Some true) empty_session))
      initial_state in
  snd (page sample_env Rerun st) = Raised (KeyError "bob")
  ∧ handle sample_env ClickLogout (fst (page sample_env Rerun st))
    = (fst (page sample_env Rerun st), Ok tt).
Proof.
  cbn zeta.
  destruct (page_without_language sample_env Rerun
              (with_session
                 (with_user (Some "bob")
                    (with_password_correct (Some true) empty_session))
                 initial_state) "bob")
    as (Hraised & _ & _ & _ & _ & _ & _ & _ & Hdead).
  - reflexivity.
  - reflexivity.
  - by vm_compute.
  - split; [exact Hraised|]. apply Hdead. by exists logout_form.
Defined.
